(** * goscon: backend pool, connection provider and start-up options

    A shallow embedding of [main.go] of goscon: the weighted host pool
    ([LocalConnProvider]), its reload path, the creation of backend
    connections with the optional wrap hook, the [OptionsFlag] parser of the
    [-tcp]/[-kcp] flags and the listener selection at the end of [main].

    Conventions of the embedding.
    - Go's [int] is the 64-bit two's-complement integer of the platforms the
      proxy is built for; it is a [Z] and every addition or subtraction the
      source performs is followed by [wrap].
    - A Go function that can [panic] returns an [outcome]; a function that
      also talks to the outside world (log, dial, close, start a listener)
      lives in the trace monad [M], whose trace lists those calls in order.
    - Whatever the source obtains from a library or from the operating system
      (the random draw, address resolution, dialing, opening and decoding the
      configuration file) is a [Variable] of the section that uses it. *)

From Stdlib Require Import ZArith List String Ascii Bool Lia.
Import ListNotations.

Open Scope string_scope.
Open Scope list_scope.
Open Scope Z_scope.

(** ** Machine integers *)

Module GoInt.

Definition int_bits : Z := 64.
Definition modulus : Z := 2 ^ int_bits.
Definition half_modulus : Z := 2 ^ (int_bits - 1).
Definition int_min : Z := - half_modulus.
Definition int_max : Z := half_modulus - 1.

(** The value a Go [int] holds after an operation whose exact result is [z]. *)
Definition wrap (z : Z) : Z := (z + half_modulus) mod modulus - half_modulus.

Definition in_range (z : Z) : Prop := int_min <= z <= int_max.

End GoInt.

(** ** Outcomes, errors and the trace monad *)

(** A Go [error] value.  [errNoHost] is the package-level sentinel,
    [errNoHosts] the value [fmt.Errorf("no hosts")] built by [reset]; anything
    a library hands back is a [LibError] carrying its message. *)
Inductive error : Type :=
| errNoHost
| errNoHosts
| LibError (msg : string).

Inductive result (A : Type) : Type :=
| Ok (a : A)
| Err (e : error).
Arguments Ok {A} a.
Arguments Err {A} e.

Inductive outcome (A : Type) : Type :=
| Ret (a : A)
| Panic (msg : string).
Arguments Ret {A} a.
Arguments Panic {A} msg.

Record TCPAddr : Type := mkTCPAddr { IP : string; Port : Z; Zone : string }.

(** An established connection, named by its descriptor. *)
Record TCPConn : Type := mkTCPConn { fd : Z }.

(** The part of [scp.Conn] that the provider reads. *)
Record scp_Conn : Type := mkScpConn { TargetServer : string }.

(** What the source passes to its logging functions after the format. *)
Inductive log_arg : Type :=
| ArgString (s : string)
| ArgError (e : error)
| ArgFlag (set : bool) (fecData fecParity : Z).

Inductive log_level : Type := LvError | LvInfo | LvLog.

Inductive event : Type :=
| EvLog (level : log_level) (format : string) (args : list log_arg)
| EvDial (raddr : option TCPAddr)
| EvWrap (local : TCPConn)
| EvClose (conn : TCPConn)
| EvSentCacheSize (size : Z)
| EvNewSCPServer (timeout fecData fecParity : Z)
| EvStart (network laddr : string).

Definition M (A : Type) : Type := (list event * outcome A)%type.

Definition ret {A : Type} (a : A) : M A := ([], Ret a).

Definition bind {A B : Type} (m : M A) (k : A -> M B) : M B :=
  match m with
  | (t, Ret a) => let (t', r) := k a in (t ++ t', r)
  | (t, Panic msg) => (t, Panic msg)
  end.

Definition emit (e : event) : M unit := ([e], Ret tt).

Definition panic {A : Type} (msg : string) : M A := ([], Panic msg).

Definition trace {A : Type} (m : M A) : list event := fst m.

Definition value {A : Type} (m : M A) : outcome A := snd m.

Declare Scope go_scope.
Delimit Scope go_scope with go.
Notation "x <- m ;; k" := (bind m (fun x => k))
  (at level 61, m at next level, right associativity) : go_scope.
Notation "m ;;; k" := (bind m (fun _ => k))
  (at level 61, right associativity) : go_scope.
Open Scope go_scope.

(** The logging functions of the package, [Log], [Info] and [Error]. *)
Definition Log (format : string) (args : list log_arg) : M unit :=
  emit (EvLog LvLog format args).

Definition Info (format : string) (args : list log_arg) : M unit :=
  emit (EvLog LvInfo format args).

Definition Error (format : string) (args : list log_arg) : M unit :=
  emit (EvLog LvError format args).

(** ** The host pool *)

Record Host : Type := mkHost {
  Addr : string;
  Weight : Z;
  Name : string;
  addr : option TCPAddr
}.

Record Config : Type := mkConfig { Hosts : list Host }.

(** The interface [LocalConnWrapper]: one method, which may hand back any
    combination of connection and error. *)
Record LocalConnWrapper : Type := mkWrapper {
  Wrapper : TCPConn -> scp_Conn -> option TCPConn * option error
}.

Record LocalConnProvider : Type := mkProvider {
  hosts : list Host;
  weight : Z;
  wrapper : option LocalConnWrapper;
  ConfigFile : string
}.

Definition set_addr (host : Host) (a : TCPAddr) : Host :=
  mkHost (Addr host) (Weight host) (Name host) (Some a).

Definition set_pool (tp : LocalConnProvider) (hs : list Host) (w : Z)
  : LocalConnProvider :=
  mkProvider hs w (wrapper tp) (ConfigFile tp).

Definition set_wrapper (tp : LocalConnProvider) (w : option LocalConnWrapper)
  : LocalConnProvider :=
  mkProvider (hosts tp) (weight tp) w (ConfigFile tp).

(** [MustSetWrapper]: the argument is an interface value, hence possibly nil. *)
Definition MustSetWrapper (tp : LocalConnProvider)
    (w : option LocalConnWrapper) : outcome LocalConnProvider :=
  match wrapper tp with
  | Some _ => Panic "tp.wrapper != nil"
  | None => Ret (set_wrapper tp w)
  end.

(** The loop of [GetHostByWeight], started with the draw [v]. *)
Fixpoint walk_by_weight (v : Z) (hs : list Host) : option Host :=
  match hs with
  | [] => None
  | host :: rest =>
      if Weight host >=? v then Some host
      else walk_by_weight (GoInt.wrap (v - Weight host)) rest
  end.

(** The loop of [GetHostByName]. *)
Fixpoint find_by_name (name : string) (hs : list Host) : option Host :=
  match hs with
  | [] => None
  | host :: rest =>
      if String.eqb (Name host) name then Some host
      else find_by_name name rest
  end.

Definition GetHostByName (tp : LocalConnProvider) (name : string)
  : M (option Host) :=
  match find_by_name name (hosts tp) with
  | Some host => ret (Some host)
  | None => Log "GetHostByName failed: %s" [ArgString name] ;;; ret None
  end.

(** The total weight as [reset] accumulates it, from the running value [w]. *)
Fixpoint sum_weights_from (w : Z) (hs : list Host) : Z :=
  match hs with
  | [] => w
  | host :: rest => sum_weights_from (GoInt.wrap (w + Weight host)) rest
  end.

Definition sum_weights (hs : list Host) : Z := sum_weights_from 0 hs.

(** The exact (unbounded) sum of the weights. *)
Definition exact_sum (hs : list Host) : Z :=
  fold_right (fun h acc => Weight h + acc) 0 hs.

(** The weighted choice in the words of the specification: walk the
    descriptors accumulating weight from [acc] and take the first one whose
    cumulative weight exceeds the draw [v]. *)
Fixpoint first_exceeding (acc v : Z) (hs : list Host) : option Host :=
  match hs with
  | [] => None
  | host :: rest =>
      let acc' := acc + Weight host in
      if v <? acc' then Some host else first_exceeding acc' v rest
  end.

(** The same walk with the comparison the source makes: the first descriptor
    whose cumulative weight reaches the draw. *)
Fixpoint first_reaching (acc v : Z) (hs : list Host) : option Host :=
  match hs with
  | [] => None
  | host :: rest =>
      let acc' := acc + Weight host in
      if v <=? acc' then Some host else first_reaching acc' v rest
  end.

(** How many draws of [0 .. n-1] make the loop of [GetHostByWeight] stop at a
    host named [name]. *)
Fixpoint draws_selecting (name : string) (hs : list Host) (n : nat) : nat :=
  match n with
  | O => O
  | S n' =>
      (match walk_by_weight (Z.of_nat n') hs with
       | Some host => if String.eqb (Name host) name then 1 else 0
       | None => 0
       end + draws_selecting name hs n')%nat
  end.

(** ** The [-tcp] / [-kcp] option values *)

Record OptionsFlag : Type := mkOptionsFlag {
  set : bool;
  fecData : Z;
  fecParity : Z
}.

(** The zero value of a declared [OptionsFlag] variable. *)
Definition zero_OptionsFlag : OptionsFlag := mkOptionsFlag false 0 0.

Definition with_set (o : OptionsFlag) (b : bool) : OptionsFlag :=
  mkOptionsFlag b (fecData o) (fecParity o).

Definition with_fecData (o : OptionsFlag) (n : Z) : OptionsFlag :=
  mkOptionsFlag (set o) n (fecParity o).

Definition with_fecParity (o : OptionsFlag) (n : Z) : OptionsFlag :=
  mkOptionsFlag (set o) (fecData o) n.

(** [strings.Split(s, sep)] for a one-byte separator: the pieces between the
    separators, hence never an empty slice. *)
Fixpoint strings_Split (s : string) (sep : ascii) : list string :=
  match s with
  | EmptyString => [EmptyString]
  | String c rest =>
      if Ascii.eqb c sep then EmptyString :: strings_Split rest sep
      else
        match strings_Split rest sep with
        | [] => [String c EmptyString]
        | piece :: pieces => String c piece :: pieces
        end
  end.

Definition digit_of (c : ascii) : option Z :=
  let n := Z.of_N (N_of_ascii c) in
  if (48 <=? n) && (n <=? 57) then Some (n - 48) else None.

Definition ErrSyntax : error := LibError "strconv.Atoi: invalid syntax".
Definition ErrRange : error := LibError "strconv.Atoi: value out of range".

(** The digit loop of [strconv.ParseUint] in base 10 on 64 bits: a byte
    that is no digit is a syntax error; a value that leaves the unsigned
    range is a range error at once, before the bytes that follow are
    looked at. *)
Fixpoint parse_digits (acc : Z) (s : string) : result Z :=
  match s with
  | EmptyString => Ok acc
  | String c rest =>
      match digit_of c with
      | None => Err ErrSyntax
      | Some d =>
          if acc >=? (GoInt.modulus - 1) / 10 + 1 then Err ErrRange
          else
            let acc' := acc * 10 + d in
            if acc' >? GoInt.modulus - 1 then Err ErrRange
            else parse_digits acc' rest
      end
  end.

(** [strconv.Atoi]: an optional sign, then one or more decimal digits read
    by the loop above, and the signed value has to fit an [int]. *)
Definition strconv_Atoi (s : string) : result Z :=
  match s with
  | EmptyString => Err ErrSyntax
  | String c rest =>
      let '(neg, digits) :=
        if Ascii.eqb c "-"%char then (true, rest)
        else if Ascii.eqb c "+"%char then (false, rest)
        else (false, s) in
      match digits with
      | EmptyString => Err ErrSyntax
      | _ =>
          match parse_digits 0 digits with
          | Err err => Err err
          | Ok n =>
              let v := if neg then - n else n in
              if (GoInt.int_min <=? v) && (v <=? GoInt.int_max) then Ok v
              else Err ErrRange
          end
      end
  end.

(** Indexing a slice, [xs[i]], with Go's run-time bounds check. *)
Definition index {A : Type} (xs : list A) (i : nat) : outcome A :=
  match nth_error xs i with
  | Some x => Ret x
  | None => Panic "runtime error: index out of range"
  end.

Definition bind_outcome {A B : Type} (o : outcome A) (k : A -> outcome B)
  : outcome B :=
  match o with
  | Ret a => k a
  | Panic msg => Panic msg
  end.

(** The loop of [OptionsFlag.Set] over the comma-separated pairs: the flag
    value reached and the error returned, or a panic. *)
Fixpoint Set_pairs (o : OptionsFlag) (pairs : list string)
  : outcome (OptionsFlag * option error) :=
  match pairs with
  | [] => Ret (o, None)
  | pair_ :: rest =>
      let option_ := strings_Split pair_ ":"%char in
      bind_outcome (index option_ 0) (fun key =>
        if String.eqb key "fec_data" then
          bind_outcome (index option_ 1) (fun arg =>
            match strconv_Atoi arg with
            | Err err => Ret (o, Some err)
            | Ok data => Set_pairs (with_fecData o data) rest
            end)
        else if String.eqb key "fec_parity" then
          bind_outcome (index option_ 1) (fun arg =>
            match strconv_Atoi arg with
            | Err err => Ret (o, Some err)
            | Ok parity => Set_pairs (with_fecParity o parity) rest
            end)
        else Set_pairs o rest)
  end.

(** [OptionsFlag.Set] ([Set] itself is a keyword here). *)
Definition OptionsFlag_Set (o : OptionsFlag) (value : string)
  : outcome (OptionsFlag * option error) :=
  Set_pairs (with_set o true) (strings_Split value ","%char).

Section Provider.

(** [rand_draw n] is what [rand.Intn(n)] yields for a positive bound [n];
    the generator promises [0 <= rand_draw n < n]. *)
Variable rand_draw : Z -> Z.

(** [net.ResolveTCPAddr("tcp", s)]. *)
Variable ResolveTCPAddr : string -> result TCPAddr.

(** [net.DialTCP("tcp", nil, raddr)]. *)
Variable DialTCP : option TCPAddr -> result TCPConn.

(** [os.Open] followed by reading the file, and [json.Decoder.Decode]. *)
Variable os_Open : string -> result string.
Variable json_Decode : string -> result Config.

Definition rand_Intn (n : Z) : M Z :=
  if n <=? 0 then panic "invalid argument to Intn" else ret (rand_draw n).

Definition GetHostByWeight (tp : LocalConnProvider) : M (option Host) :=
  v <- rand_Intn (weight tp) ;;
  ret (walk_by_weight v (hosts tp)).

Definition GetHost (tp : LocalConnProvider) (preferred : string)
  : M (option Host) :=
  if String.eqb preferred "" then GetHostByWeight tp
  else GetHostByName tp preferred.

Definition net_DialTCP (raddr : option TCPAddr) : M (result TCPConn) :=
  emit (EvDial raddr) ;;; ret (DialTCP raddr).

Definition call_Wrapper (w : LocalConnWrapper) (local : TCPConn)
    (remote : scp_Conn) : M (option TCPConn * option error) :=
  emit (EvWrap local) ;;; ret (Wrapper w local remote).

Definition Close (conn : TCPConn) : M unit := emit (EvClose conn).

(** [CreateLocalConn]: the host comes from the process-wide provider [glb]
    (the source reads [glbLocalConnProvider] there), the hook from the
    receiver [tp].  The result is Go's pair of connection and error. *)
Definition CreateLocalConn (glb tp : LocalConnProvider) (remoteConn : scp_Conn)
  : M (option TCPConn * option error) :=
  host <- GetHost glb (TargetServer remoteConn) ;;
  match host with
  | None => ret (None, Some errNoHost)
  | Some host =>
      r <- net_DialTCP (addr host) ;;
      match r with
      | Err err => ret (None, Some err)
      | Ok conn =>
          match wrapper tp with
          | None => ret (Some conn, None)
          | Some w =>
              r' <- call_Wrapper w conn remoteConn ;;
              match r' with
              | (_, Some err) => Close conn ;;; ret (None, Some err)
              | (newConn, None) => ret (newConn, None)
              end
          end
      end
  end.

(** The loop of [reset]: resolve each address in turn, stop at the first
    failure, accumulate the weight. *)
Fixpoint resolve_hosts (hs : list Host) (w : Z) : result (list Host * Z) :=
  match hs with
  | [] => Ok ([], w)
  | host :: rest =>
      match ResolveTCPAddr (Addr host) with
      | Err err => Err err
      | Ok a =>
          match resolve_hosts rest (GoInt.wrap (w + Weight host)) with
          | Err err => Err err
          | Ok (hs', w') => Ok (set_addr host a :: hs', w')
          end
      end
  end.

(** [reset]: the provider after the call, and the error returned. *)
Definition reset (tp : LocalConnProvider) (hs : list Host)
  : LocalConnProvider * option error :=
  match resolve_hosts hs 0 with
  | Err err => (tp, Some err)
  | Ok (hs', w) =>
      if w <=? 0 then (tp, Some errNoHosts)
      else (set_pool tp hs' w, None)
  end.

Definition Reload (tp : LocalConnProvider) : LocalConnProvider * option error :=
  match os_Open (ConfigFile tp) with
  | Err err => (tp, Some err)
  | Ok fp =>
      match json_Decode fp with
      | Err err => (tp, Some err)
      | Ok config => reset tp (Hosts config)
      end
  end.

(** ** Start-up *)

(** The command line after [flag.Parse]. *)
Record Flags : Type := mkFlags {
  tcp : OptionsFlag;
  kcp : OptionsFlag;
  config : string;
  listen : string;
  reuseTimeout : Z;
  sentCacheSize : Z
}.

Definition flag_arg (o : OptionsFlag) : log_arg :=
  ArgFlag (set o) (fecData o) (fecParity o).

(** [new(LocalConnProvider)]. *)
Definition new_LocalConnProvider : LocalConnProvider :=
  mkProvider [] 0 None "".

Definition with_ConfigFile (tp : LocalConnProvider) (file : string)
  : LocalConnProvider :=
  mkProvider (hosts tp) (weight tp) (wrapper tp) file.

(** A hook installed by [installWrapperHook]: it receives the provider by
    reference, so it yields the provider it leaves behind, or panics (as
    [MustSetWrapper] does on a second registration). *)
Definition WrapperHook : Type := LocalConnProvider -> outcome LocalConnProvider.

Fixpoint wrapperHook (glbWrapperHooks : list WrapperHook)
    (provider : LocalConnProvider) : outcome LocalConnProvider :=
  match glbWrapperHooks with
  | [] => Ret provider
  | hook :: rest =>
      bind_outcome (hook provider) (fun provider' => wrapperHook rest provider')
  end.

(** A computation without trace, run inside [M]. *)
Definition lift {A : Type} (o : outcome A) : M A := ([], o).

(** [if !kcp.set && !tcp.set { tcp.set = true }]. *)
Definition default_tcp (tcp kcp : OptionsFlag) : OptionsFlag :=
  if negb (set kcp) && negb (set tcp) then with_set tcp true else tcp.

(** [go func() { glbScpServer.Start(network, listen); ... }()]: the event
    records that the listener is launched; the [Start] calls themselves run
    in goroutines of their own, in no fixed order. *)
Definition go_Start (network laddr : string) : M unit :=
  emit (EvStart network laddr).

(** The end of [main], from the transport default to the two listeners; the
    trace keeps the [go] statements in program order. *)
Definition start_listeners (tcp kcp : OptionsFlag) (laddr : string)
  : M OptionsFlag :=
  let tcp := default_tcp tcp kcp in
  Log "tcp = %v" [flag_arg tcp] ;;;
  Log "kcp = %v" [flag_arg kcp] ;;;
  (if set tcp then go_Start "tcp" laddr else ret tt) ;;;
  (if set kcp then go_Start "kcp" laddr else ret tt) ;;;
  ret tcp.

(** [main] from the instruction after [flag.Parse]; the signal goroutine has
    no part in what is modelled. *)
Definition main (glbWrapperHooks : list WrapperHook) (f : Flags) : M unit :=
  let provider := with_ConfigFile new_LocalConnProvider (config f) in
  Info "config file: %s" [ArgString (ConfigFile provider)] ;;;
  match Reload provider with
  | (_, Some err) =>
      Error "load target pool failed: %s" [ArgError err]
  | (provider, None) =>
      _ <- lift (wrapperHook glbWrapperHooks provider) ;;
      (if sentCacheSize f >? 0 then emit (EvSentCacheSize (sentCacheSize f))
       else ret tt) ;;;
      emit (EvNewSCPServer (reuseTimeout f) (fecData (kcp f))
              (fecParity (kcp f))) ;;;
      _ <- start_listeners (tcp f) (kcp f) (listen f) ;;
      ret tt
  end.

(** The listeners a trace starts, in order. *)
Fixpoint started (t : list event) : list (string * string) :=
  match t with
  | [] => []
  | EvStart network laddr :: rest => (network, laddr) :: started rest
  | _ :: rest => started rest
  end.

(** The addresses a trace dials, in order. *)
Fixpoint dials (t : list event) : list (option TCPAddr) :=
  match t with
  | [] => []
  | EvDial raddr :: rest => raddr :: dials rest
  | _ :: rest => dials rest
  end.

End Provider.

(** [h'] is [h] after [reset] stored the resolved address of [h] in it. *)
Definition resolved (ResolveTCPAddr : string -> result TCPAddr)
    (h h' : Host) : Prop :=
  exists a, ResolveTCPAddr (Addr h) = Ok a /\ h' = set_addr h a.

(** ** Sample data *)

Definition host_a : Host :=
  mkHost "10.0.0.1:7001" 1 "a" (Some (mkTCPAddr "10.0.0.1" 7001 "")).

Definition host_b : Host :=
  mkHost "10.0.0.2:7001" 1 "b" (Some (mkTCPAddr "10.0.0.2" 7001 "")).

Definition host_idle : Host :=
  mkHost "10.0.0.3:7001" 0 "idle" (Some (mkTCPAddr "10.0.0.3" 7001 "")).

(** Two backends of weight 1 each, as a successful [reset] publishes them. *)
Definition pool_ab : LocalConnProvider :=
  mkProvider [host_a; host_b] 2 None "./settings.conf".

(** A backend of weight 0 in front of one of weight 1. *)
Definition pool_idle_b : LocalConnProvider :=
  mkProvider [host_idle; host_b] 1 None "./settings.conf".

(** A generator that always yields the largest draw, [n - 1], of its range. *)
Definition last_draw (n : Z) : Z := n - 1.

Definition host_neg : Host := mkHost "10.0.0.4:7001" (-1) "neg" None.

Definition host_two : Host := mkHost "10.0.0.5:7001" 2 "two" None.

Definition host_unweighted : Host := mkHost "10.0.0.6:7001" 0 "" None.

(** A resolver that accepts every address, and one that accepts none. *)
Definition resolve_any (s : string) : result TCPAddr :=
  Ok (mkTCPAddr s 0 "").


(** A file system with one readable file, and decoders for three contents. *)
Definition open_any (name : string) : result string := Ok name.

Definition open_none (name : string) : result string :=
  Err (LibError "no such file or directory").

Definition decode_zero_weight (fp : string) : result Config :=
  Ok (mkConfig [host_unweighted]).


Definition conn_7 : TCPConn := mkTCPConn 7.

(** A dialer that always connects, and one that never does. *)
Definition dial_ok (raddr : option TCPAddr) : result TCPConn := Ok conn_7.

Definition dial_refused (raddr : option TCPAddr) : result TCPConn :=
  Err (LibError "connection refused").

(** A hook that always fails. *)
Definition failing_wrapper : LocalConnWrapper :=
  mkWrapper (fun _ _ => (None, Some (LibError "wrap failed"))).

Definition pool_ab_wrapped : LocalConnProvider :=
  set_wrapper pool_ab (Some failing_wrapper).

Definition decode_ab (fp : string) : result Config :=
  Ok (mkConfig [host_a; host_b]).

(** The command line with no option given: the defaults of [main]. *)
Definition default_flags : Flags :=
  mkFlags zero_OptionsFlag zero_OptionsFlag "./settings.conf" "0.0.0.0:1248"
    30 65536.

(** An item of a flag value names a shard count when its key is one of the
    two that [OptionsFlag.Set] reads, and carries a value when it holds a
    colon. *)
Definition names_shards (item : string) : bool :=
  match strings_Split item ":"%char with
  | key :: _ => String.eqb key "fec_data" || String.eqb key "fec_parity"
  | [] => false
  end.

Definition carries_value (item : string) : bool :=
  match strings_Split item ":"%char with
  | _ :: _ :: _ => true
  | _ => false
  end.

(** ** Signals, reload on demand, hook installation *)

(** A [syscall.Signal] is its number. *)
Definition Signal : Type := Z.

Definition SIG_RELOAD : Signal := 34.
Definition SIG_STATUS : Signal := 35.
Definition SIGTERM : Signal := 15.

Section Control.

Variable ResolveTCPAddr : string -> result TCPAddr.
Variable os_Open : string -> result string.
Variable json_Decode : string -> result Config.

(** [reload()], on the process-wide provider [glb]; the provider it leaves
    behind is the result. *)
Definition reload (glb : LocalConnProvider) : M LocalConnProvider :=
  match Reload ResolveTCPAddr os_Open json_Decode glb with
  | (glb', Some err) => Log "reload failed: %s" [ArgError err] ;;; ret glb'
  | (glb', None) => Log "reload succeed" [] ;;; ret glb'
  end.

End Control.

(** The world at the moment a signal is handled: what the resolver and the
    file system answer then, and what [status()] does then ([status()]
    reads the Go run time and the SCP server, which live outside this file,
    and logs them; it has no access to the provider). *)
Record World : Type := mkWorld {
  resolver : string -> result TCPAddr;
  file_system : string -> result string;
  status : M unit
}.

Section Signals.

Variable json_Decode : string -> result Config.

(** [handleSignal]: the loop over the signals the channel [c] delivers, in
    order, each with the world it is handled in: a reload reads the
    configuration file and resolves the addresses as they are at that
    moment. *)
Fixpoint handleSignal (c : list (Signal * World)) (glb : LocalConnProvider)
  : M LocalConnProvider :=
  match c with
  | [] => ret glb
  | (sig, now) :: rest =>
      glb' <- (if sig =? SIG_RELOAD then
                 reload (resolver now) (file_system now) json_Decode glb
               else if sig =? SIG_STATUS then status now ;;; ret glb
               else if sig =? SIGTERM then
                 Log "catch sigterm, ignore" [] ;;; ret glb
               else ret glb) ;;
      handleSignal rest glb'
  end.

End Signals.

(** [installWrapperHook]: the hook list after the call. *)
Definition installWrapperHook (glbWrapperHooks : list WrapperHook)
    (hook : WrapperHook) : list WrapperHook :=
  glbWrapperHooks ++ [hook].

(** The connections a trace closes, in order. *)
Fixpoint closes (t : list event) : list TCPConn :=
  match t with
  | [] => []
  | EvClose conn :: rest => conn :: closes rest
  | _ :: rest => closes rest
  end.

(** The state a successful [reset] publishes: the total is the accumulated
    weight of the hosts, it is positive, and every host has its address
    resolved. *)
Definition pool_ok (tp : LocalConnProvider) : Prop :=
  weight tp = sum_weights (hosts tp) /\ 0 < weight tp /\
  Forall (fun h => addr h <> None) (hosts tp).

(** The key of an item of a flag value: what stands before its first colon. *)
Definition item_key (item : string) : string :=
  match strings_Split item ":"%char with
  | key :: _ => key
  | [] => ""
  end.

(** What [OptionsFlag.Set] does with the outcome of the items read so far
    when more items follow. *)
Definition then_pairs (r : OptionsFlag * option error) (pairs : list string)
  : outcome (OptionsFlag * option error) :=
  match r with
  | (o, None) => Set_pairs o pairs
  | (o, Some err) => Ret (o, Some err)
  end.

(** More sample data. *)

Definition host_hog : Host :=
  mkHost "10.0.0.7:7001" 3 "hog" (Some (mkTCPAddr "10.0.0.7" 7001 "")).

Definition host_unresolvable : Host := mkHost "nowhere" 1 "lost" None.

(** A resolver that knows every address but [nowhere]. *)
Definition resolve_known (s : string) : result TCPAddr :=
  if String.eqb s "nowhere" then Err (LibError "missing port in address")
  else Ok (mkTCPAddr s 0 "").

(** A [status()] that logs one line. *)
Definition status_line : M unit := Log "status" [].

(** A world whose configuration file cannot be opened, and one in which it
    can and every address resolves. *)
Definition world_no_file : World := mkWorld resolve_any open_none status_line.

Definition world_ready : World := mkWorld resolve_any open_any status_line.

(** The least [int] as a weight. *)
Definition host_min : Host :=
  mkHost "10.0.0.8:7001" (-9223372036854775808) "min" None.

(** What [reset] publishes for the backends of weight -1 and of the least
    weight: the accumulated total wraps around to the greatest [int]. *)
Definition pool_neg_min : LocalConnProvider :=
  set_pool new_LocalConnProvider
    [set_addr host_neg (mkTCPAddr "10.0.0.4:7001" 0 "");
     set_addr host_min (mkTCPAddr "10.0.0.8:7001" 0 "")]
    9223372036854775807.

(** A generator that always yields the least draw, 0, of its range. *)
Definition first_draw (n : Z) : Z := 0.

(** A hook that returns the connection it was given. *)
Definition passing_wrapper : LocalConnWrapper :=
  mkWrapper (fun local _ => (Some local, None)).

(** [pool_ab] after a reload of the same two backends through
    [resolve_any]. *)
Definition pool_ab_reloaded : LocalConnProvider :=
  set_pool pool_ab
    [set_addr host_a (mkTCPAddr "10.0.0.1:7001" 0 "");
     set_addr host_b (mkTCPAddr "10.0.0.2:7001" 0 "")] 2.

(** * Properties *)

(** ** Machine integers *)

Lemma modulus_val : GoInt.modulus = 18446744073709551616.
Proof. reflexivity. Qed.

Lemma half_modulus_val : GoInt.half_modulus = 9223372036854775808.
Proof. reflexivity. Qed.

Lemma wrap_in_range (z : Z) : GoInt.in_range (GoInt.wrap z).
Proof.
  unfold GoInt.in_range, GoInt.wrap, GoInt.int_min, GoInt.int_max.
  rewrite modulus_val, half_modulus_val.
  pose proof (Z.mod_pos_bound (z + 9223372036854775808) 18446744073709551616).
  lia.
Qed.

Lemma wrap_congruent (z : Z) : exists k, GoInt.wrap z = z + k * GoInt.modulus.
Proof.
  exists (- ((z + GoInt.half_modulus) / GoInt.modulus)).
  unfold GoInt.wrap. rewrite Z.mod_eq by (rewrite modulus_val; lia). lia.
Qed.

Lemma wrap_id (z : Z) : GoInt.in_range z -> GoInt.wrap z = z.
Proof.
  unfold GoInt.in_range, GoInt.wrap, GoInt.int_min, GoInt.int_max.
  rewrite modulus_val, half_modulus_val. intros Hz.
  rewrite Z.mod_small by lia. lia.
Qed.

(** ** The accumulated weight *)

Lemma sum_weights_from_in_range (hs : list Host) :
  forall w, GoInt.in_range w -> GoInt.in_range (sum_weights_from w hs).
Proof.
  induction hs as [|h hs IH]; intros w Hw; simpl.
  - exact Hw.
  - apply IH, wrap_in_range.
Qed.

Lemma sum_weights_in_range (hs : list Host) : GoInt.in_range (sum_weights hs).
Proof.
  apply sum_weights_from_in_range.
  unfold GoInt.in_range, GoInt.int_min, GoInt.int_max.
  rewrite half_modulus_val. lia.
Qed.

Lemma sum_weights_from_congruent (hs : list Host) :
  forall w, exists k,
    sum_weights_from w hs = w + exact_sum hs + k * GoInt.modulus.
Proof.
  induction hs as [|h hs IH]; intros w; simpl.
  - exists 0. lia.
  - destruct (IH (GoInt.wrap (w + Weight h))) as [k Hk].
    destruct (wrap_congruent (w + Weight h)) as [k' Hk'].
    exists (k + k'). rewrite Hk, Hk'. lia.
Qed.

Lemma exact_sum_nonneg (hs : list Host) :
  Forall (fun h => 0 <= Weight h) hs -> 0 <= exact_sum hs.
Proof.
  induction 1 as [|h hs Hh _ IH]; simpl; lia.
Qed.

(** With no negative weight, a positive accumulated weight never exceeds the
    exact sum, even when the accumulation has overflowed on the way. *)
Lemma sum_weights_le_exact (hs : list Host) :
  Forall (fun h => 0 <= Weight h) hs ->
  0 < sum_weights hs -> sum_weights hs <= exact_sum hs.
Proof.
  intros Hnn Hpos.
  pose proof (exact_sum_nonneg hs Hnn) as Hex.
  pose proof (sum_weights_in_range hs) as [_ Hmax].
  destruct (sum_weights_from_congruent hs 0) as [k Hk].
  fold (sum_weights hs) in Hk.
  unfold GoInt.int_max in Hmax.
  rewrite half_modulus_val in Hmax. rewrite modulus_val in Hk.
  assert (k <= 0) by lia. lia.
Qed.


(** ** Weighted selection *)

(** The loop of [GetHostByWeight] stops at a host as soon as the draw is
    below the exact sum of the weights that are left. *)
Lemma walk_by_weight_some (hs : list Host) :
  Forall (fun h => 0 <= Weight h) hs ->
  forall v, 0 <= v <= GoInt.int_max -> v < exact_sum hs ->
  exists h, walk_by_weight v hs = Some h /\ In h hs.
Proof.
  induction 1 as [|h hs Hh _ IH]; intros v Hv Hlt; simpl in *.
  - lia.
  - destruct (Weight h >=? v) eqn:Hcmp.
    + exists h. auto.
    + rewrite Z.geb_leb in Hcmp. apply Z.leb_gt in Hcmp.
      assert (Hr : GoInt.in_range (v - Weight h)).
      { unfold GoInt.in_range, GoInt.int_min, GoInt.int_max in *.
        rewrite half_modulus_val in *. lia. }
      rewrite (wrap_id _ Hr).
      destruct (IH (v - Weight h)) as [h' [Hw Hin]].
      * unfold GoInt.int_max in *. lia.
      * lia.
      * exists h'. auto.
Qed.

(** What the loop computes: the first host whose cumulative weight reaches
    the draw (not: exceeds it). *)
Lemma walk_by_weight_first_reaching (hs : list Host) :
  Forall (fun h => 0 <= Weight h) hs ->
  forall acc v, v - acc <= GoInt.int_max ->
  walk_by_weight (v - acc) hs = first_reaching acc v hs.
Proof.
  induction 1 as [|h hs Hh _ IH]; intros acc v Hv; simpl.
  - reflexivity.
  - rewrite Z.geb_leb.
    replace (v - acc <=? Weight h) with (v <=? acc + Weight h)
      by (apply Bool.eq_true_iff_eq; rewrite !Z.leb_le; lia).
    destruct (v <=? acc + Weight h) eqn:Hcmp.
    + reflexivity.
    + apply Z.leb_gt in Hcmp.
      assert (Hr : GoInt.in_range (v - acc - Weight h)).
      { unfold GoInt.in_range, GoInt.int_min, GoInt.int_max in *.
        rewrite half_modulus_val in *. lia. }
      rewrite (wrap_id _ Hr).
      replace (v - acc - Weight h) with (v - (acc + Weight h)) by lia.
      apply IH. unfold GoInt.int_max in *. lia.
Qed.

(** C1 (the code departs from the claim).  On the pool of two backends of
    weight 1, the draw 1 makes [GetHostByWeight] return the first backend,
    whereas the first descriptor whose cumulative weight exceeds 1 is the
    second; over the two possible draws the second backend is never chosen
    and the first is chosen twice.  On a pool that starts with a backend of
    weight 0, the draw 0 returns that backend. *)
Theorem GetHostByWeight_off_by_one :
  GetHostByWeight last_draw pool_ab = ([], Ret (Some host_a)) /\
  first_exceeding 0 (last_draw (weight pool_ab)) (hosts pool_ab)
    = Some host_b /\
  draws_selecting "a" (hosts pool_ab) 2 = 2%nat /\
  draws_selecting "b" (hosts pool_ab) 2 = 0%nat /\
  GetHostByWeight last_draw pool_idle_b = ([], Ret (Some host_idle)) /\
  first_exceeding 0 (last_draw (weight pool_idle_b)) (hosts pool_idle_b)
    = Some host_b /\
  Weight host_idle = 0.
Proof.
  repeat split; vm_compute; reflexivity.
Qed.

(** C10.  On a pool whose total weight is the accumulated weight of its
    hosts and is positive, with no negative host weight, [GetHostByWeight]
    returns one of the hosts of the pool for every draw in
    [0, total weight): it neither panics nor falls through to nil. *)
Theorem GetHostByWeight_never_nil (rand_draw : Z -> Z)
    (tp : LocalConnProvider) :
  weight tp = sum_weights (hosts tp) ->
  Forall (fun h => 0 <= Weight h) (hosts tp) ->
  0 < weight tp ->
  0 <= rand_draw (weight tp) < weight tp ->
  exists h,
    GetHostByWeight rand_draw tp = ([], Ret (Some h)) /\ In h (hosts tp).
Proof.
  intros Hsum Hnn Hpos Hdraw.
  assert (Hle : weight tp <= exact_sum (hosts tp)).
  { rewrite Hsum. apply sum_weights_le_exact; [exact Hnn | lia]. }
  assert (Hmax : weight tp <= GoInt.int_max).
  { rewrite Hsum. apply sum_weights_in_range. }
  destruct (walk_by_weight_some (hosts tp) Hnn (rand_draw (weight tp)))
    as [h [Hwalk Hin]]; [lia | lia |].
  exists h. split; [| exact Hin].
  unfold GetHostByWeight, rand_Intn.
  destruct (weight tp <=? 0) eqn:Hw; [apply Z.leb_le in Hw; lia |].
  simpl. rewrite Hwalk. reflexivity.
Qed.

Lemma GetHostByWeight_never_nil_witness :
  exists h,
    GetHostByWeight last_draw pool_ab = ([], Ret (Some h)) /\
    In h (hosts pool_ab).
Proof.
  apply GetHostByWeight_never_nil.
  - reflexivity.
  - repeat constructor; simpl; lia.
  - simpl; lia.
  - unfold last_draw; simpl; lia.
Defined.

(** C10, as stated, fails: [reset] accepts the backends of weight -1 and of
    the least weight, whose accumulated total wraps around to the greatest
    [int]; on the pool it publishes, [GetHostByWeight] falls through to nil
    for the draw 0, and so does its loop for every draw of the range. *)
Lemma GetHostByWeight_nil_after_reset :
  reset resolve_any new_LocalConnProvider [host_neg; host_min]
    = (pool_neg_min, None) /\
  0 <= first_draw (weight pool_neg_min) < weight pool_neg_min /\
  GetHostByWeight first_draw pool_neg_min = ([], Ret None) /\
  (forall v, 0 <= v < weight pool_neg_min ->
     walk_by_weight v (hosts pool_neg_min) = None).
Proof.
  split; [vm_compute; reflexivity |].
  split; [unfold first_draw; simpl; lia |].
  split; [vm_compute; reflexivity |].
  intros v Hv. simpl in Hv. simpl.
  destruct (-1 >=? v) eqn:H1;
    [rewrite Z.geb_leb in H1; apply Z.leb_le in H1; lia |].
  assert (Hr : GoInt.in_range (v - -1)).
  { unfold GoInt.in_range, GoInt.int_min, GoInt.int_max.
    rewrite half_modulus_val. lia. }
  rewrite (wrap_id _ Hr).
  destruct (-9223372036854775808 >=? v - -1) eqn:H2;
    [rewrite Z.geb_leb in H2; apply Z.leb_le in H2; lia | reflexivity].
Qed.

(** ** Reload *)

Section ResetFacts.

Variable ResolveTCPAddr : string -> result TCPAddr.

Lemma resolve_hosts_ok (hs : list Host) :
  forall w hs' w',
    resolve_hosts ResolveTCPAddr hs w = Ok (hs', w') ->
    w' = sum_weights_from w hs /\ Forall2 (resolved ResolveTCPAddr) hs hs'.
Proof.
  induction hs as [|h hs IH]; intros w hs' w' Hres; simpl in Hres.
  - inversion Hres; subst. split; [reflexivity | constructor].
  - destruct (ResolveTCPAddr (Addr h)) as [a|e] eqn:Ha; [| discriminate].
    destruct (resolve_hosts ResolveTCPAddr hs (GoInt.wrap (w + Weight h)))
      as [[hs1 w1]|e] eqn:Hrest; [| discriminate].
    inversion Hres; subst.
    destruct (IH _ _ _ Hrest) as [Hw Hall].
    split; [exact Hw |].
    constructor; [exists a; auto | exact Hall].
Qed.

Lemma resolve_hosts_err (hs : list Host) :
  forall w e,
    resolve_hosts ResolveTCPAddr hs w = Err e ->
    exists h, In h hs /\ ResolveTCPAddr (Addr h) = Err e.
Proof.
  induction hs as [|h hs IH]; intros w e Hres; simpl in Hres.
  - discriminate.
  - destruct (ResolveTCPAddr (Addr h)) as [a|e0] eqn:Ha.
    + destruct (resolve_hosts ResolveTCPAddr hs (GoInt.wrap (w + Weight h)))
        as [[hs1 w1]|e1] eqn:Hrest; [discriminate |].
      inversion Hres; subst.
      destruct (IH _ _ Hrest) as [h' [Hin Hh']].
      exists h'. split; [right; exact Hin | exact Hh'].
    + inversion Hres; subst. exists h. split; [left; reflexivity | exact Ha].
Qed.


Lemma resolve_hosts_all (hs : list Host) :
  (forall h, In h hs -> exists a, ResolveTCPAddr (Addr h) = Ok a) ->
  forall w, exists hs',
    resolve_hosts ResolveTCPAddr hs w = Ok (hs', sum_weights_from w hs).
Proof.
  induction hs as [|h hs IH]; intros Hall w; simpl.
  - eauto.
  - destruct (Hall h (or_introl eq_refl)) as [a Ha]. rewrite Ha.
    destruct (IH (fun x Hx => Hall x (or_intror Hx))
                (GoInt.wrap (w + Weight h))) as [hs' Hhs'].
    rewrite Hhs'. eauto.
Qed.

Lemma resolved_same_weights (hs hs' : list Host) :
  Forall2 (resolved ResolveTCPAddr) hs hs' ->
  forall w, sum_weights_from w hs' = sum_weights_from w hs.
Proof.
  induction 1 as [|h h' hs hs' [a [_ Hh']] _ IH]; intros w; simpl.
  - reflexivity.
  - subst h'. simpl. apply IH.
Qed.

(** [reset] either returns an error and the provider it was given, or no
    error and a provider whose pool is the resolved list with its positive
    accumulated weight. *)
Lemma reset_cases (tp : LocalConnProvider) (hs : list Host) :
  (exists e, reset ResolveTCPAddr tp hs = (tp, Some e)) \/
  (exists hs',
     reset ResolveTCPAddr tp hs = (set_pool tp hs' (sum_weights hs), None) /\
     Forall2 (resolved ResolveTCPAddr) hs hs' /\
     0 < sum_weights hs).
Proof.
  unfold reset.
  destruct (resolve_hosts ResolveTCPAddr hs 0) as [[hs' w]|e] eqn:Hres.
  - destruct (resolve_hosts_ok _ _ _ _ Hres) as [Hw Hall].
    fold (sum_weights hs) in Hw. subst w.
    destruct (sum_weights hs <=? 0) eqn:Hcmp.
    + left. eauto.
    + right. exists hs'. apply Z.leb_gt in Hcmp. auto.
  - left. eauto.
Qed.

End ResetFacts.



(** C7, as stated, fails: the list of a backend of weight -1 and one of
    weight 2 is accepted by [reset], and the pool it publishes holds the
    negative weight. *)
Lemma reset_accepts_negative_weight :
  snd (reset resolve_any new_LocalConnProvider [host_neg; host_two]) = None /\
  ~ Forall (fun h => 0 <= Weight h)
      (hosts (fst (reset resolve_any new_LocalConnProvider
                     [host_neg; host_two]))).
Proof.
  split.
  - vm_compute. reflexivity.
  - intros Hall. vm_compute in Hall. inversion Hall as [|h l Hh Hl]; subst.
    apply Hh. reflexivity.
Qed.

(** C7, amended.  A pool accepted by [reset] is the given list with every
    address resolved, and its published total weight is the accumulated
    weight of the list and is positive; the individual weights are not
    examined: every list whose addresses resolve and whose accumulated
    weight is positive is accepted, whatever the sign of each weight. *)
Theorem reset_accepts_positive_total
    (ResolveTCPAddr : string -> result TCPAddr)
    (tp : LocalConnProvider) (hs : list Host) :
  (forall tp', reset ResolveTCPAddr tp hs = (tp', None) ->
     Forall2 (resolved ResolveTCPAddr) hs (hosts tp') /\
     weight tp' = sum_weights hs /\
     weight tp' = sum_weights (hosts tp') /\
     0 < weight tp') /\
  ((forall h, In h hs -> exists a, ResolveTCPAddr (Addr h) = Ok a) ->
   0 < sum_weights hs ->
   exists tp', reset ResolveTCPAddr tp hs = (tp', None)).
Proof.
  split.
  - intros tp' Hok.
    destruct (reset_cases ResolveTCPAddr tp hs)
      as [[e0 Hr] | [hs' [Hr [Hall Hpos]]]]; rewrite Hr in Hok;
      [discriminate |].
    inversion Hok; subst tp'. simpl. repeat split; auto.
    unfold sum_weights. symmetry.
    apply (resolved_same_weights ResolveTCPAddr); exact Hall.
  - intros Hall Hpos. unfold reset.
    destruct (resolve_hosts_all ResolveTCPAddr hs Hall 0) as [hs' Hhs'].
    rewrite Hhs'. fold (sum_weights hs).
    destruct (sum_weights hs <=? 0) eqn:Hcmp;
      [apply Z.leb_le in Hcmp; lia | eauto].
Qed.

Lemma reset_accepts_positive_total_witness :
  exists tp',
    reset resolve_any new_LocalConnProvider [host_neg; host_two]
      = (tp', None).
Proof.
  destruct (reset_accepts_positive_total resolve_any new_LocalConnProvider
              [host_neg; host_two]) as [_ Hacc].
  apply Hacc.
  - intros h _. eexists. reflexivity.
  - vm_compute. reflexivity.
Defined.

(** ** Selection by name *)

Lemma find_by_name_first (name : string) (pre post : list Host) (h : Host) :
  Name h = name ->
  (forall x, In x pre -> Name x <> name) ->
  find_by_name name (pre ++ h :: post) = Some h.
Proof.
  intros Hh. induction pre as [|x pre IH]; intros Hpre; simpl.
  - rewrite (proj2 (String.eqb_eq _ _) Hh). reflexivity.
  - destruct (String.eqb (Name x) name) eqn:Hx.
    + apply String.eqb_eq in Hx. exfalso. apply (Hpre x); simpl; auto.
    + apply IH. intros y Hy. apply Hpre. simpl; auto.
Qed.

Lemma find_by_name_absent (name : string) (hs : list Host) :
  (forall h, In h hs -> Name h <> name) -> find_by_name name hs = None.
Proof.
  induction hs as [|x hs IH]; intros Hall; simpl.
  - reflexivity.
  - destruct (String.eqb (Name x) name) eqn:Hx.
    + apply String.eqb_eq in Hx. exfalso. apply (Hall x); simpl; auto.
    + apply IH. intros y Hy. apply Hall. simpl; auto.
Qed.

Lemma first_match_exists (name : string) (hs : list Host) :
  (exists h, In h hs /\ Name h = name) ->
  exists pre h post,
    hs = pre ++ h :: post /\ Name h = name /\
    (forall x, In x pre -> Name x <> name).
Proof.
  induction hs as [|x hs IH]; intros [h [Hin Hh]].
  - contradiction.
  - destruct (String.eqb (Name x) name) eqn:Hx.
    + apply String.eqb_eq in Hx.
      exists [], x, hs. simpl.
      split; [reflexivity | split; [exact Hx | intros y []]].
    + apply String.eqb_neq in Hx.
      destruct Hin as [Heq | Hin]; [subst x; contradiction |].
      destruct IH as [pre [h' [post [Hhs [Hh' Hpre]]]]]; [eauto |].
      exists (x :: pre), h', post. subst hs. simpl.
      split; [reflexivity | split; [exact Hh' |]].
      intros y [Hy | Hy]; [subst y; exact Hx | auto].
Qed.

(** C3.  [GetHostByName] answers for every pool and every name: when some
    descriptor carries the name, the pool splits at the first such
    descriptor and that one is returned; when none does, the result is nil,
    after one log line, and no host is put in its place. *)
Theorem GetHostByName_first_match_or_nil
    (tp : LocalConnProvider) (name : string) :
  ((exists h, In h (hosts tp) /\ Name h = name) ->
   exists pre h post,
     hosts tp = pre ++ h :: post /\ Name h = name /\
     (forall x, In x pre -> Name x <> name) /\
     GetHostByName tp name = ([], Ret (Some h))) /\
  ((forall h, In h (hosts tp) -> Name h <> name) ->
   GetHostByName tp name
     = ([EvLog LvLog "GetHostByName failed: %s" [ArgString name]],
        Ret None)).
Proof.
  split.
  - intros Hex.
    destruct (first_match_exists name (hosts tp) Hex)
      as [pre [h [post [Hhs [Hh Hpre]]]]].
    exists pre, h, post.
    split; [exact Hhs | split; [exact Hh | split; [exact Hpre |]]].
    unfold GetHostByName. rewrite Hhs.
    rewrite (find_by_name_first name pre post h Hh Hpre). reflexivity.
  - intros Habs. unfold GetHostByName.
    rewrite (find_by_name_absent name (hosts tp) Habs). reflexivity.
Qed.

Lemma GetHostByName_first_match_or_nil_witness :
  (exists pre h post,
     hosts pool_ab = pre ++ h :: post /\ Name h = "b" /\
     (forall x, In x pre -> Name x <> "b") /\
     GetHostByName pool_ab "b" = ([], Ret (Some h))) /\
  GetHostByName pool_ab "c"
    = ([EvLog LvLog "GetHostByName failed: %s" [ArgString "c"]], Ret None).
Proof.
  split.
  - apply (proj1 (GetHostByName_first_match_or_nil pool_ab "b")).
    exists host_b. split; [right; left; reflexivity | reflexivity].
  - apply (proj2 (GetHostByName_first_match_or_nil pool_ab "c")).
    intros h [Hh | [Hh | []]]; subst h; discriminate.
Defined.

(** ** The wrap hook *)

(** C6.  [MustSetWrapper] on a provider that already has a hook panics and
    yields no provider; on a provider without one it returns the provider
    with the given hook installed and everything else as it was. *)
Theorem MustSetWrapper_once
    (tp : LocalConnProvider) (w : option LocalConnWrapper) :
  (forall w0, wrapper tp = Some w0 ->
     MustSetWrapper tp w = Panic "tp.wrapper != nil") /\
  (wrapper tp = None ->
     exists tp',
       MustSetWrapper tp w = Ret tp' /\ wrapper tp' = w /\
       hosts tp' = hosts tp /\ weight tp' = weight tp /\
       ConfigFile tp' = ConfigFile tp).
Proof.
  unfold MustSetWrapper. split.
  - intros w0 Hw. rewrite Hw. reflexivity.
  - intros Hw. rewrite Hw. exists (set_wrapper tp w).
    split; [reflexivity |]. split; [reflexivity |].
    split; [reflexivity |]. split; reflexivity.
Qed.

Lemma MustSetWrapper_once_witness :
  MustSetWrapper pool_ab_wrapped None = Panic "tp.wrapper != nil" /\
  exists tp',
    MustSetWrapper pool_ab (Some failing_wrapper) = Ret tp' /\
    wrapper tp' = Some failing_wrapper /\
    hosts tp' = hosts pool_ab /\ weight tp' = weight pool_ab /\
    ConfigFile tp' = ConfigFile pool_ab.
Proof.
  split.
  - apply (proj1 (MustSetWrapper_once pool_ab_wrapped None) failing_wrapper).
    reflexivity.
  - apply (proj2 (MustSetWrapper_once pool_ab (Some failing_wrapper))).
    reflexivity.
Defined.

(** ** Creating the backend connection *)

Lemma dials_app (t t' : list event) : dials (t ++ t') = dials t ++ dials t'.
Proof.
  induction t as [|e t IH]; simpl; [reflexivity |].
  destruct e; simpl; rewrite IH; reflexivity.
Qed.

Section CreateLocalConnFacts.

Variable rand_draw : Z -> Z.
Variable DialTCP : option TCPAddr -> result TCPConn.

(** Choosing a host dials nothing. *)
Lemma GetHost_no_dial (tp : LocalConnProvider) (preferred : string) :
  dials (trace (GetHost rand_draw tp preferred)) = [].
Proof.
  unfold GetHost, GetHostByWeight, rand_Intn, GetHostByName.
  destruct (String.eqb preferred "").
  - destruct (weight tp <=? 0); reflexivity.
  - destruct (find_by_name preferred (hosts tp)); reflexivity.
Qed.

(** [CreateLocalConn] once the host is known. *)
Lemma CreateLocalConn_unfold (glb tp : LocalConnProvider) (rc : scp_Conn)
    (t : list event) (host : Host) :
  GetHost rand_draw glb (TargetServer rc) = (t, Ret (Some host)) ->
  CreateLocalConn rand_draw DialTCP glb tp rc =
    match DialTCP (addr host) with
    | Err err => (t ++ [EvDial (addr host)], Ret (None, Some err))
    | Ok conn =>
        match wrapper tp with
        | None => (t ++ [EvDial (addr host)], Ret (Some conn, None))
        | Some w =>
            match Wrapper w conn rc with
            | (_, Some err) =>
                (t ++ [EvDial (addr host); EvWrap conn; EvClose conn],
                 Ret (None, Some err))
            | (newConn, None) =>
                (t ++ [EvDial (addr host); EvWrap conn], Ret (newConn, None))
            end
        end
    end.
Proof.
  intros Hhost. unfold CreateLocalConn. rewrite Hhost.
  unfold net_DialTCP, call_Wrapper, Close. simpl.
  destruct (DialTCP (addr host)) as [conn|err]; simpl; [| reflexivity].
  destruct (wrapper tp) as [w|]; simpl; [| reflexivity].
  destruct (Wrapper w conn rc) as [newConn [err|]]; reflexivity.
Qed.

End CreateLocalConnFacts.

(** C4.  [GetHost] selects by weight for the empty name and by name
    otherwise.  When it yields no host, [CreateLocalConn] returns the no-host
    error without dialing; when the dial of the chosen host fails, it returns
    that very error and the dial is the last thing it did; and no run of
    [CreateLocalConn] dials more than once. *)
Theorem CreateLocalConn_no_fallback
    (rand_draw : Z -> Z) (DialTCP : option TCPAddr -> result TCPConn)
    (glb tp : LocalConnProvider) (rc : scp_Conn) :
  let run := CreateLocalConn rand_draw DialTCP glb tp rc in
  (TargetServer rc = "" ->
     GetHost rand_draw glb (TargetServer rc)
       = GetHostByWeight rand_draw glb) /\
  (TargetServer rc <> "" ->
     GetHost rand_draw glb (TargetServer rc)
       = GetHostByName glb (TargetServer rc)) /\
  (forall t,
     GetHost rand_draw glb (TargetServer rc) = (t, Ret None) ->
     run = (t, Ret (None, Some errNoHost)) /\ dials (trace run) = []) /\
  (forall t host err,
     GetHost rand_draw glb (TargetServer rc) = (t, Ret (Some host)) ->
     DialTCP (addr host) = Err err ->
     run = (t ++ [EvDial (addr host)], Ret (None, Some err)) /\
     dials (trace run) = [addr host]) /\
  (List.length (dials (trace run)) <= 1)%nat.
Proof.
  intros run. subst run.
  split; [| split; [| split; [| split]]].
  - intros Hname. unfold GetHost. rewrite Hname. reflexivity.
  - intros Hname. unfold GetHost.
    rewrite (proj2 (String.eqb_neq _ _) Hname). reflexivity.
  - intros t Hnone.
    pose proof (GetHost_no_dial rand_draw glb (TargetServer rc)) as Hnd.
    rewrite Hnone in Hnd. simpl in Hnd.
    unfold CreateLocalConn. rewrite Hnone. simpl.
    rewrite app_nil_r. split; [reflexivity | exact Hnd].
  - intros t host err Hhost Herr.
    pose proof (GetHost_no_dial rand_draw glb (TargetServer rc)) as Hnd.
    rewrite Hhost in Hnd. simpl in Hnd.
    rewrite (CreateLocalConn_unfold rand_draw DialTCP glb tp rc t host Hhost).
    rewrite Herr. split; [reflexivity |].
    unfold trace. simpl. rewrite dials_app, Hnd. reflexivity.
  - pose proof (GetHost_no_dial rand_draw glb (TargetServer rc)) as Hnd.
    destruct (GetHost rand_draw glb (TargetServer rc))
      as [t [[host|]|msg]] eqn:Hget; simpl in Hnd.
    + rewrite (CreateLocalConn_unfold rand_draw DialTCP glb tp rc t host Hget).
      destruct (DialTCP (addr host)) as [conn|err];
        [destruct (wrapper tp) as [w|];
           [destruct (Wrapper w conn rc) as [newConn [err|]] |] |];
        unfold trace; simpl; rewrite dials_app, Hnd; simpl; lia.
    + unfold CreateLocalConn. rewrite Hget. unfold trace. simpl.
      rewrite app_nil_r, Hnd. simpl. lia.
    + unfold CreateLocalConn. rewrite Hget. unfold trace. simpl.
      rewrite Hnd. simpl. lia.
Qed.

Lemma CreateLocalConn_no_fallback_witness :
  CreateLocalConn last_draw dial_refused pool_ab pool_ab (mkScpConn "")
    = ([] ++ [EvDial (addr host_a)],
       Ret (None, Some (LibError "connection refused"))) /\
  CreateLocalConn last_draw dial_refused pool_ab pool_ab (mkScpConn "c")
    = ([EvLog LvLog "GetHostByName failed: %s" [ArgString "c"]],
       Ret (None, Some errNoHost)).
Proof.
  split.
  - apply (CreateLocalConn_no_fallback last_draw dial_refused pool_ab pool_ab
             (mkScpConn "")); reflexivity.
  - apply (CreateLocalConn_no_fallback last_draw dial_refused pool_ab pool_ab
             (mkScpConn "c")); reflexivity.
Defined.

(** C5.  After a successful dial: with a hook registered that returns an
    error, [CreateLocalConn] closes the connection it dialed and returns nil
    together with the hook's error; with no hook registered it returns the
    dialed connection itself, with no error. *)
Theorem CreateLocalConn_hook
    (rand_draw : Z -> Z) (DialTCP : option TCPAddr -> result TCPConn)
    (glb tp : LocalConnProvider) (rc : scp_Conn)
    (t : list event) (host : Host) (conn : TCPConn) :
  GetHost rand_draw glb (TargetServer rc) = (t, Ret (Some host)) ->
  DialTCP (addr host) = Ok conn ->
  (forall w newConn err,
     wrapper tp = Some w -> Wrapper w conn rc = (newConn, Some err) ->
     CreateLocalConn rand_draw DialTCP glb tp rc
       = (t ++ [EvDial (addr host); EvWrap conn; EvClose conn],
          Ret (None, Some err))) /\
  (wrapper tp = None ->
     CreateLocalConn rand_draw DialTCP glb tp rc
       = (t ++ [EvDial (addr host)], Ret (Some conn, None))).
Proof.
  intros Hhost Hdial.
  rewrite (CreateLocalConn_unfold rand_draw DialTCP glb tp rc t host Hhost).
  rewrite Hdial. split.
  - intros w newConn err Hw Hwrap. rewrite Hw, Hwrap. reflexivity.
  - intros Hw. rewrite Hw. reflexivity.
Qed.

Lemma CreateLocalConn_hook_witness :
  CreateLocalConn last_draw dial_ok pool_ab pool_ab_wrapped (mkScpConn "b")
    = ([] ++ [EvDial (addr host_b); EvWrap conn_7; EvClose conn_7],
       Ret (None, Some (LibError "wrap failed"))) /\
  CreateLocalConn last_draw dial_ok pool_ab pool_ab (mkScpConn "b")
    = ([] ++ [EvDial (addr host_b)], Ret (Some conn_7, None)).
Proof.
  split.
  - apply (proj1 (CreateLocalConn_hook last_draw dial_ok pool_ab
                    pool_ab_wrapped (mkScpConn "b") [] host_b conn_7
                    eq_refl eq_refl) failing_wrapper None);
      reflexivity.
  - apply (proj2 (CreateLocalConn_hook last_draw dial_ok pool_ab pool_ab
                    (mkScpConn "b") [] host_b conn_7 eq_refl eq_refl)).
    reflexivity.
Defined.

(** ** Start-up *)

(** C8.  With neither [-tcp] nor [-kcp] given, the end of [main] turns the
    tcp flag on and starts the tcp listener on the listen address, and no
    other; in [main] as a whole, which gets there once the pool is loaded
    and the hooks have run, exactly the tcp listener is started, and no run
    of [main] starts anything else. *)
Theorem main_defaults_to_tcp
    (ResolveTCPAddr : string -> result TCPAddr)
    (os_Open : string -> result string)
    (json_Decode : string -> result Config)
    (glbWrapperHooks : list WrapperHook) (f : Flags) :
  set (tcp f) = false -> set (kcp f) = false ->
  let run := main ResolveTCPAddr os_Open json_Decode glbWrapperHooks f in
  set (default_tcp (tcp f) (kcp f)) = true /\
  start_listeners (tcp f) (kcp f) (listen f)
    = ([EvLog LvLog "tcp = %v"
          [ArgFlag true (fecData (tcp f)) (fecParity (tcp f))];
        EvLog LvLog "kcp = %v"
          [ArgFlag false (fecData (kcp f)) (fecParity (kcp f))];
        EvStart "tcp" (listen f)],
       Ret (with_set (tcp f) true)) /\
  (forall provider provider',
     Reload ResolveTCPAddr os_Open json_Decode
       (with_ConfigFile new_LocalConnProvider (config f))
       = (provider, None) ->
     wrapperHook glbWrapperHooks provider = Ret provider' ->
     started (trace run) = [("tcp", listen f)] /\ value run = Ret tt) /\
  (forall network laddr,
     In (network, laddr) (started (trace run)) ->
     network = "tcp" /\ laddr = listen f).
Proof.
  intros Htcp Hkcp run.
  assert (Hblock : start_listeners (tcp f) (kcp f) (listen f)
    = ([EvLog LvLog "tcp = %v"
          [ArgFlag true (fecData (tcp f)) (fecParity (tcp f))];
        EvLog LvLog "kcp = %v"
          [ArgFlag false (fecData (kcp f)) (fecParity (kcp f))];
        EvStart "tcp" (listen f)],
       Ret (with_set (tcp f) true))).
  { unfold start_listeners, default_tcp, flag_arg.
    rewrite Htcp, Hkcp. simpl. rewrite ?Hkcp. reflexivity. }
  assert (Hrun :
    (started (trace run) = [("tcp", listen f)] /\ value run = Ret tt /\
     exists provider provider',
       Reload ResolveTCPAddr os_Open json_Decode
         (with_ConfigFile new_LocalConnProvider (config f))
         = (provider, None) /\
       wrapperHook glbWrapperHooks provider = Ret provider') \/
    (started (trace run) = [] /\
     forall provider provider',
       Reload ResolveTCPAddr os_Open json_Decode
         (with_ConfigFile new_LocalConnProvider (config f))
         = (provider, None) ->
       wrapperHook glbWrapperHooks provider <> Ret provider')).
  { subst run. unfold main.
    destruct (Reload ResolveTCPAddr os_Open json_Decode
                (with_ConfigFile new_LocalConnProvider (config f)))
      as [provider [err|]] eqn:Hreload.
    - right. split; [reflexivity |]. intros p p' Hp. discriminate.
    - destruct (wrapperHook glbWrapperHooks provider) as [p'|msg] eqn:Hhooks.
      + left. rewrite Hblock.
        split; [| split; [| exists provider, p'; auto]];
          destruct (sentCacheSize f >? 0); reflexivity.
      + right. split; [reflexivity |].
        intros p p' Hp. inversion Hp; subst p. congruence. }
  split; [| split; [exact Hblock | split]].
  - unfold default_tcp. rewrite Htcp, Hkcp. reflexivity.
  - intros provider provider' Hreload Hhooks.
    destruct Hrun as [[Hst [Hval _]] | [_ Hnever]]; [auto |].
    exfalso. exact (Hnever provider provider' Hreload Hhooks).
  - intros network laddr Hin.
    destruct Hrun as [[Hst _] | [Hst _]]; rewrite Hst in Hin.
    + destruct Hin as [Heq | []]. inversion Heq. auto.
    + destruct Hin.
Qed.

Lemma main_defaults_to_tcp_witness :
  started (trace (main resolve_any open_any decode_ab [] default_flags))
    = [("tcp", "0.0.0.0:1248")] /\
  value (main resolve_any open_any decode_ab [] default_flags) = Ret tt.
Proof.
  destruct (main_defaults_to_tcp resolve_any open_any decode_ab []
              default_flags eq_refl eq_refl) as (_ & _ & Hmain & _).
  apply (Hmain (set_pool (with_ConfigFile new_LocalConnProvider
                            "./settings.conf")
                  [set_addr host_a (mkTCPAddr "10.0.0.1:7001" 0 "");
                   set_addr host_b (mkTCPAddr "10.0.0.2:7001" 0 "")] 2)
               (set_pool (with_ConfigFile new_LocalConnProvider
                            "./settings.conf")
                  [set_addr host_a (mkTCPAddr "10.0.0.1:7001" 0 "");
                   set_addr host_b (mkTCPAddr "10.0.0.2:7001" 0 "")] 2));
    reflexivity.
Defined.

(** ** Option values *)

Lemma strings_Split_nonempty (s : string) (sep : ascii) :
  strings_Split s sep <> [].
Proof.
  destruct s as [|c s]; simpl; [discriminate |].
  destruct (Ascii.eqb c sep); [discriminate |].
  destruct (strings_Split s sep); discriminate.
Qed.

(** [OptionsFlag.Set] returns, with or without a parse error, on every
    value in which each item naming a shard count carries a value. *)
Lemma Set_pairs_returns (pairs : list string) :
  Forall (fun item => names_shards item = true -> carries_value item = true)
    pairs ->
  forall o, exists r, Set_pairs o pairs = Ret r.
Proof.
  induction 1 as [|item pairs Hitem _ IH]; intros o; simpl.
  - eauto.
  - unfold names_shards, carries_value in Hitem.
    pose proof (strings_Split_nonempty item ":"%char) as Hne.
    destruct (strings_Split item ":"%char) as [|key [|arg more]];
      [contradiction | |]; simpl.
    + destruct (String.eqb key "fec_data");
        [discriminate (Hitem eq_refl) |].
      destruct (String.eqb key "fec_parity");
        [discriminate (Hitem eq_refl) |].
      apply IH.
    + destruct (String.eqb key "fec_data").
      * destruct (strconv_Atoi arg); [apply IH | eauto].
      * destruct (String.eqb key "fec_parity"); [| apply IH].
        destruct (strconv_Atoi arg); [apply IH | eauto].
Qed.

(** C9 (the code departs from the claim).  For every flag value [o], the
    values [fec_data] and [fec_parity] without a colon, alone or after a
    well-formed item, make [OptionsFlag.Set] panic on the index 1 of a
    one-element slice; a well-formed value is recorded and an unparsable
    count is reported as an error. *)
Theorem OptionsFlag_Set_missing_value_panics (o : OptionsFlag) :
  OptionsFlag_Set o "fec_data" = Panic "runtime error: index out of range" /\
  OptionsFlag_Set o "fec_parity"
    = Panic "runtime error: index out of range" /\
  OptionsFlag_Set o "fec_data:2,fec_parity"
    = Panic "runtime error: index out of range" /\
  OptionsFlag_Set o "fec_data:2,fec_parity:1"
    = Ret (mkOptionsFlag true 2 1, None) /\
  OptionsFlag_Set o "fec_data:x" = Ret (with_set o true, Some ErrSyntax).
Proof.
  repeat split; reflexivity.
Qed.

(** * Further properties of the code *)

(** ** Selection *)

Lemma walk_by_weight_In (hs : list Host) :
  forall v h, walk_by_weight v hs = Some h -> In h hs.
Proof.
  induction hs as [|x hs IH]; intros v h Hw; simpl in Hw.
  - discriminate.
  - destruct (Weight x >=? v).
    + inversion Hw; subst. left; reflexivity.
    + right. exact (IH _ _ Hw).
Qed.

Lemma find_by_name_some (name : string) (hs : list Host) (h : Host) :
  find_by_name name hs = Some h -> In h hs /\ Name h = name.
Proof.
  induction hs as [|x hs IH]; intros Hf; simpl in Hf.
  - discriminate.
  - destruct (String.eqb (Name x) name) eqn:Hx.
    + inversion Hf; subst. apply String.eqb_eq in Hx.
      split; [left; reflexivity | exact Hx].
    + destruct (IH Hf) as [Hin Hn]. split; [right; exact Hin | exact Hn].
Qed.

Lemma find_by_name_none (name : string) (hs : list Host) :
  find_by_name name hs = None -> forall h, In h hs -> Name h <> name.
Proof.
  induction hs as [|x hs IH]; intros Hf h Hin; simpl in *.
  - contradiction.
  - destruct (String.eqb (Name x) name) eqn:Hx; [discriminate |].
    destruct Hin as [Heq | Hin].
    + subst h. apply String.eqb_neq. exact Hx.
    + exact (IH Hf h Hin).
Qed.

(** X1.  On a pool without negative weights, for a draw in
    [0, total weight), [GetHostByWeight] returns the first host whose
    cumulative weight is at least the draw. *)
Theorem GetHostByWeight_first_reaching (rand_draw : Z -> Z)
    (tp : LocalConnProvider) :
  Forall (fun h => 0 <= Weight h) (hosts tp) ->
  weight tp <= GoInt.int_max ->
  0 <= rand_draw (weight tp) < weight tp ->
  GetHostByWeight rand_draw tp
    = ([], Ret (first_reaching 0 (rand_draw (weight tp)) (hosts tp))).
Proof.
  intros Hnn Hmax Hdraw.
  unfold GetHostByWeight, rand_Intn.
  destruct (weight tp <=? 0) eqn:Hw; [apply Z.leb_le in Hw; lia |].
  simpl.
  rewrite <- (walk_by_weight_first_reaching (hosts tp) Hnn 0
                (rand_draw (weight tp))) by lia.
  rewrite Z.sub_0_r. reflexivity.
Qed.

Lemma GetHostByWeight_first_reaching_witness :
  GetHostByWeight last_draw pool_ab
    = ([], Ret (first_reaching 0 (last_draw (weight pool_ab))
                  (hosts pool_ab))).
Proof.
  apply GetHostByWeight_first_reaching.
  - repeat constructor; simpl; lia.
  - vm_compute. discriminate.
  - unfold last_draw; simpl; lia.
Defined.

(** X2.  Whatever host [GetHostByName] returns belongs to the pool and
    carries the requested name, and nothing was logged; when it returns nil,
    no host of the pool carries the name. *)
Theorem GetHostByName_sound (tp : LocalConnProvider) (name : string) :
  (forall h, value (GetHostByName tp name) = Ret (Some h) ->
     In h (hosts tp) /\ Name h = name /\
     trace (GetHostByName tp name) = []) /\
  (value (GetHostByName tp name) = Ret None ->
     forall h, In h (hosts tp) -> Name h <> name).
Proof.
  unfold GetHostByName.
  destruct (find_by_name name (hosts tp)) as [h0|] eqn:Hf; simpl.
  - destruct (find_by_name_some name (hosts tp) h0 Hf) as [Hin Hn].
    split.
    + intros h Hh. inversion Hh; subst h. auto.
    + discriminate.
  - split.
    + discriminate.
    + intros _. exact (find_by_name_none name (hosts tp) Hf).
Qed.

Lemma GetHostByName_sound_witness :
  In host_b (hosts pool_ab) /\ Name host_b = "b" /\
  trace (GetHostByName pool_ab "b") = [].
Proof.
  apply (proj1 (GetHostByName_sound pool_ab "b") host_b). reflexivity.
Defined.

(** X3.  [GetHost] panics exactly when the preferred name is empty and the
    total weight of the pool is not positive: a request by name never
    panics, whatever the pool. *)
Theorem GetHost_panics_iff (rand_draw : Z -> Z) (tp : LocalConnProvider)
    (preferred : string) :
  (exists msg, value (GetHost rand_draw tp preferred) = Panic msg) <->
  (preferred = "" /\ weight tp <= 0).
Proof.
  unfold GetHost, GetHostByWeight, rand_Intn, GetHostByName.
  destruct (String.eqb preferred "") eqn:Hp.
  - apply String.eqb_eq in Hp.
    destruct (weight tp <=? 0) eqn:Hw; simpl.
    + apply Z.leb_le in Hw. split; [auto | eauto].
    + apply Z.leb_gt in Hw. split.
      * intros [msg Hm]. discriminate.
      * intros [_ Hle]. lia.
  - apply String.eqb_neq in Hp. split.
    + intros [msg Hm].
      destruct (find_by_name preferred (hosts tp)); discriminate.
    + intros [He _]. contradiction.
Qed.

Lemma GetHost_panics_iff_witness :
  exists msg, value (GetHost last_draw new_LocalConnProvider "") = Panic msg.
Proof.
  apply (proj2 (GetHost_panics_iff last_draw new_LocalConnProvider "")).
  split; [reflexivity | simpl; lia].
Defined.

Lemma GetHost_In (rand_draw : Z -> Z) (tp : LocalConnProvider)
    (preferred : string) (t : list event) (h : Host) :
  GetHost rand_draw tp preferred = (t, Ret (Some h)) -> In h (hosts tp).
Proof.
  unfold GetHost, GetHostByWeight, rand_Intn, GetHostByName.
  destruct (String.eqb preferred "").
  - destruct (weight tp <=? 0); simpl; intros Hg; [discriminate |].
    inversion Hg as [[Ht Hw]]. exact (walk_by_weight_In _ _ _ Hw).
  - destruct (find_by_name preferred (hosts tp)) as [h0|] eqn:Hf; simpl;
      intros Hg; [| discriminate].
    inversion Hg; subst. exact (proj1 (find_by_name_some _ _ _ Hf)).
Qed.

(** ** Creating the backend connection, continued *)

Lemma closes_app (t t' : list event) :
  closes (t ++ t') = closes t ++ closes t'.
Proof.
  induction t as [|e t IH]; simpl; [reflexivity |].
  destruct e; simpl; rewrite IH; reflexivity.
Qed.

Lemma GetHost_no_close (rand_draw : Z -> Z) (tp : LocalConnProvider)
    (preferred : string) :
  closes (trace (GetHost rand_draw tp preferred)) = [].
Proof.
  unfold GetHost, GetHostByWeight, rand_Intn, GetHostByName.
  destruct (String.eqb preferred "").
  - destruct (weight tp <=? 0); reflexivity.
  - destruct (find_by_name preferred (hosts tp)); reflexivity.
Qed.

(** X4.  [CreateLocalConn] never returns a connection together with an
    error, not even when the hook hands back both. *)
Theorem CreateLocalConn_conn_or_error
    (rand_draw : Z -> Z) (DialTCP : option TCPAddr -> result TCPConn)
    (glb tp : LocalConnProvider) (rc : scp_Conn)
    (conn : option TCPConn) (err : option error) :
  value (CreateLocalConn rand_draw DialTCP glb tp rc) = Ret (conn, err) ->
  conn = None \/ err = None.
Proof.
  destruct (GetHost rand_draw glb (TargetServer rc))
    as [t [[host|]|msg]] eqn:Hget.
  - rewrite (CreateLocalConn_unfold rand_draw DialTCP glb tp rc t host Hget).
    destruct (DialTCP (addr host)) as [c|e];
      [destruct (wrapper tp) as [w|];
         [destruct (Wrapper w c rc) as [newConn [e|]] |] |];
      simpl; intros Hv; inversion Hv; auto.
  - unfold CreateLocalConn. rewrite Hget. simpl.
    intros Hv; inversion Hv; auto.
  - unfold CreateLocalConn. rewrite Hget. simpl. discriminate.
Qed.

Lemma CreateLocalConn_conn_or_error_witness :
  @None TCPConn = None \/ Some (LibError "wrap failed") = None.
Proof.
  apply (CreateLocalConn_conn_or_error last_draw dial_ok pool_ab
           pool_ab_wrapped (mkScpConn "b")).
  reflexivity.
Defined.

(** X5.  When the hook returns no error, [CreateLocalConn] returns exactly
    the connection the hook returned, which may be another one than the
    dialed connection or nil, with no error, and closes nothing. *)
Theorem CreateLocalConn_hook_result
    (rand_draw : Z -> Z) (DialTCP : option TCPAddr -> result TCPConn)
    (glb tp : LocalConnProvider) (rc : scp_Conn)
    (t : list event) (host : Host) (conn : TCPConn)
    (w : LocalConnWrapper) (newConn : option TCPConn) :
  GetHost rand_draw glb (TargetServer rc) = (t, Ret (Some host)) ->
  DialTCP (addr host) = Ok conn ->
  wrapper tp = Some w ->
  Wrapper w conn rc = (newConn, None) ->
  CreateLocalConn rand_draw DialTCP glb tp rc
    = (t ++ [EvDial (addr host); EvWrap conn], Ret (newConn, None)) /\
  closes (trace (CreateLocalConn rand_draw DialTCP glb tp rc)) = [].
Proof.
  intros Hhost Hdial Hw Hwrap.
  pose proof (GetHost_no_close rand_draw glb (TargetServer rc)) as Hnc.
  rewrite Hhost in Hnc. simpl in Hnc.
  rewrite (CreateLocalConn_unfold rand_draw DialTCP glb tp rc t host Hhost).
  rewrite Hdial, Hw, Hwrap. split; [reflexivity |].
  unfold trace. simpl. rewrite closes_app, Hnc. reflexivity.
Qed.

Lemma CreateLocalConn_hook_result_witness :
  CreateLocalConn last_draw dial_ok pool_ab
    (set_wrapper pool_ab (Some passing_wrapper)) (mkScpConn "b")
    = ([] ++ [EvDial (addr host_b); EvWrap conn_7], Ret (Some conn_7, None)) /\
  closes (trace (CreateLocalConn last_draw dial_ok pool_ab
                   (set_wrapper pool_ab (Some passing_wrapper))
                   (mkScpConn "b"))) = [].
Proof.
  apply (CreateLocalConn_hook_result last_draw dial_ok pool_ab
           (set_wrapper pool_ab (Some passing_wrapper)) (mkScpConn "b")
           [] host_b conn_7 passing_wrapper (Some conn_7));
    reflexivity.
Defined.

(** X6.  [CreateLocalConn] takes its host from the process-wide provider:
    the pool of the receiver plays no part, only its hook does. *)
Theorem CreateLocalConn_receiver_pool_unused
    (rand_draw : Z -> Z) (DialTCP : option TCPAddr -> result TCPConn)
    (glb tp tp' : LocalConnProvider) (rc : scp_Conn) :
  wrapper tp = wrapper tp' ->
  CreateLocalConn rand_draw DialTCP glb tp rc
    = CreateLocalConn rand_draw DialTCP glb tp' rc.
Proof.
  intros Hw. unfold CreateLocalConn. rewrite Hw. reflexivity.
Qed.

Lemma CreateLocalConn_receiver_pool_unused_witness :
  CreateLocalConn last_draw dial_ok pool_ab pool_idle_b (mkScpConn "a")
    = CreateLocalConn last_draw dial_ok pool_ab new_LocalConnProvider
        (mkScpConn "a").
Proof.
  apply CreateLocalConn_receiver_pool_unused. reflexivity.
Defined.

(** X7.  [CreateLocalConn] closes at most one connection, and a run that
    returns without error closes none. *)
Theorem CreateLocalConn_closes
    (rand_draw : Z -> Z) (DialTCP : option TCPAddr -> result TCPConn)
    (glb tp : LocalConnProvider) (rc : scp_Conn) :
  let run := CreateLocalConn rand_draw DialTCP glb tp rc in
  (List.length (closes (trace run)) <= 1)%nat /\
  (forall conn, value run = Ret (conn, None) -> closes (trace run) = []) /\
  (forall conn, In conn (closes (trace run)) ->
     exists host, In host (hosts glb) /\ DialTCP (addr host) = Ok conn).
Proof.
  intros run. subst run.
  pose proof (GetHost_no_close rand_draw glb (TargetServer rc)) as Hnc.
  destruct (GetHost rand_draw glb (TargetServer rc))
    as [t [[host|]|msg]] eqn:Hget; simpl in Hnc.
  - pose proof (GetHost_In _ _ _ _ _ Hget) as Hin.
    rewrite (CreateLocalConn_unfold rand_draw DialTCP glb tp rc t host Hget).
    destruct (DialTCP (addr host)) as [c|e] eqn:Hd;
      [destruct (wrapper tp) as [w|];
         [destruct (Wrapper w c rc) as [newConn [e|]] |] |];
      unfold trace, value; simpl; rewrite closes_app, Hnc; simpl;
      (split; [lia | split; [intros conn Hv; try reflexivity; discriminate |]]);
      intros conn Hc; try contradiction.
    destruct Hc as [Hc | []]. subst conn. exists host. auto.
  - unfold CreateLocalConn. rewrite Hget. unfold trace, value. simpl.
    rewrite app_nil_r, Hnc. simpl.
    split; [lia | split; [reflexivity | contradiction]].
  - unfold CreateLocalConn. rewrite Hget. unfold trace, value. simpl.
    rewrite Hnc. simpl.
    split; [lia | split; [reflexivity | contradiction]].
Qed.

Lemma CreateLocalConn_closes_witness :
  closes (trace (CreateLocalConn last_draw dial_ok pool_ab pool_ab
                   (mkScpConn "a"))) = [].
Proof.
  destruct (CreateLocalConn_closes last_draw dial_ok pool_ab pool_ab
              (mkScpConn "a")) as (_ & Hnone & _).
  apply (Hnone (Some conn_7)). reflexivity.
Defined.

(** ** Reset and reload, continued *)

Lemma resolved_has_addr (ResolveTCPAddr : string -> result TCPAddr)
    (hs hs' : list Host) :
  Forall2 (resolved ResolveTCPAddr) hs hs' ->
  Forall (fun h => addr h <> None) hs'.
Proof.
  induction 1 as [|h h' hs hs' [a [_ Hh']] _ IH]; constructor.
  - subst h'. simpl. discriminate.
  - exact IH.
Qed.

(** A provider that [reset] accepted is in the published state. *)
Lemma reset_pool_ok (ResolveTCPAddr : string -> result TCPAddr)
    (tp tp' : LocalConnProvider) (hs : list Host) :
  reset ResolveTCPAddr tp hs = (tp', None) -> pool_ok tp'.
Proof.
  intros Hok.
  destruct (reset_cases ResolveTCPAddr tp hs)
    as [[e0 Hr] | [hs' [Hr [Hall Hpos]]]]; rewrite Hr in Hok;
    [discriminate |].
  inversion Hok; subst tp'. unfold pool_ok. simpl.
  split; [| split; [exact Hpos |]].
  - unfold sum_weights. symmetry.
    apply (resolved_same_weights ResolveTCPAddr); exact Hall.
  - exact (resolved_has_addr ResolveTCPAddr hs hs' Hall).
Qed.

(** X8.  Once [reset] has accepted a pool, every dial of [CreateLocalConn]
    on that provider goes to a resolved address, never to a nil one. *)
Theorem CreateLocalConn_dials_resolved
    (ResolveTCPAddr : string -> result TCPAddr)
    (tp0 glb : LocalConnProvider) (hs : list Host)
    (rand_draw : Z -> Z) (DialTCP : option TCPAddr -> result TCPConn)
    (tp : LocalConnProvider) (rc : scp_Conn) :
  reset ResolveTCPAddr tp0 hs = (glb, None) ->
  Forall (fun raddr => raddr <> None)
    (dials (trace (CreateLocalConn rand_draw DialTCP glb tp rc))).
Proof.
  intros Hreset.
  destruct (reset_pool_ok ResolveTCPAddr tp0 glb hs Hreset)
    as (_ & _ & Haddr).
  pose proof (GetHost_no_dial rand_draw glb (TargetServer rc)) as Hnd.
  destruct (GetHost rand_draw glb (TargetServer rc))
    as [t [[host|]|msg]] eqn:Hget; simpl in Hnd.
  - pose proof (GetHost_In _ _ _ _ _ Hget) as Hin.
    assert (Hh : addr host <> None)
      by exact (proj1 (Forall_forall _ _) Haddr host Hin).
    rewrite (CreateLocalConn_unfold rand_draw DialTCP glb tp rc t host Hget).
    destruct (DialTCP (addr host)) as [c|e];
      [destruct (wrapper tp) as [w|];
         [destruct (Wrapper w c rc) as [newConn [e|]] |] |];
      unfold trace; simpl; rewrite dials_app, Hnd; simpl;
      constructor; auto.
  - unfold CreateLocalConn. rewrite Hget. unfold trace. simpl.
    rewrite app_nil_r, Hnd. constructor.
  - unfold CreateLocalConn. rewrite Hget. unfold trace. simpl.
    rewrite Hnd. constructor.
Qed.

Lemma CreateLocalConn_dials_resolved_witness :
  Forall (fun raddr => raddr <> None)
    (dials (trace (CreateLocalConn last_draw dial_ok
                     (set_pool new_LocalConnProvider
                        [set_addr host_neg (mkTCPAddr "10.0.0.4:7001" 0 "");
                         set_addr host_two (mkTCPAddr "10.0.0.5:7001" 0 "")]
                        1)
                     pool_ab (mkScpConn "two")))).
Proof.
  apply (CreateLocalConn_dials_resolved resolve_any new_LocalConnProvider
           _ [host_neg; host_two]).
  reflexivity.
Defined.

Lemma resolve_hosts_first_error
    (ResolveTCPAddr : string -> result TCPAddr)
    (pre post : list Host) (h : Host) (e : error) :
  (forall x, In x pre -> exists a, ResolveTCPAddr (Addr x) = Ok a) ->
  ResolveTCPAddr (Addr h) = Err e ->
  forall w, resolve_hosts ResolveTCPAddr (pre ++ h :: post) w = Err e.
Proof.
  intros Hpre He. induction pre as [|x pre IH]; intros w; simpl.
  - rewrite He. reflexivity.
  - destruct (Hpre x (or_introl eq_refl)) as [a Ha]. rewrite Ha.
    rewrite (IH (fun y Hy => Hpre y (or_intror Hy))). reflexivity.
Qed.

(** X9.  [reset] reports the error of the first host, in list order, whose
    address does not resolve, whatever the weights and whatever follows
    that host; the provider is left as it was. *)
Theorem reset_first_unresolvable
    (ResolveTCPAddr : string -> result TCPAddr)
    (tp : LocalConnProvider) (pre post : list Host) (h : Host) (e : error) :
  (forall x, In x pre -> exists a, ResolveTCPAddr (Addr x) = Ok a) ->
  ResolveTCPAddr (Addr h) = Err e ->
  reset ResolveTCPAddr tp (pre ++ h :: post) = (tp, Some e).
Proof.
  intros Hpre He. unfold reset.
  rewrite (resolve_hosts_first_error ResolveTCPAddr pre post h e Hpre He).
  reflexivity.
Qed.

Lemma reset_first_unresolvable_witness :
  reset resolve_known pool_ab ([host_a] ++ host_unresolvable :: [host_neg])
    = (pool_ab, Some (LibError "missing port in address")).
Proof.
  apply reset_first_unresolvable.
  - intros x [Hx | []]. subst x. eexists. reflexivity.
  - reflexivity.
Defined.

(** X10.  When every address resolves and the accumulated weight is not
    positive, [reset] returns the error "no hosts" and leaves the provider
    as it was; the empty list is such a list. *)
Theorem reset_no_hosts
    (ResolveTCPAddr : string -> result TCPAddr)
    (tp : LocalConnProvider) (hs : list Host) :
  (forall h, In h hs -> exists a, ResolveTCPAddr (Addr h) = Ok a) ->
  sum_weights hs <= 0 ->
  reset ResolveTCPAddr tp hs = (tp, Some errNoHosts) /\
  reset ResolveTCPAddr tp [] = (tp, Some errNoHosts).
Proof.
  intros Hall Hsum. split; [| reflexivity].
  unfold reset.
  destruct (resolve_hosts_all ResolveTCPAddr hs Hall 0) as [hs' Hhs'].
  rewrite Hhs'. fold (sum_weights hs).
  destruct (sum_weights hs <=? 0) eqn:Hcmp;
    [reflexivity | apply Z.leb_gt in Hcmp; lia].
Qed.

Lemma reset_no_hosts_witness :
  reset resolve_any pool_ab [host_neg; host_idle]
    = (pool_ab, Some errNoHosts) /\
  reset resolve_any pool_ab [] = (pool_ab, Some errNoHosts).
Proof.
  apply reset_no_hosts.
  - intros h _. eexists. reflexivity.
  - vm_compute. discriminate.
Defined.

(** ** Signals *)

Section ControlFacts.

Variable ResolveTCPAddr : string -> result TCPAddr.
Variable os_Open : string -> result string.
Variable json_Decode : string -> result Config.

Lemma Reload_frame (tp tp' : LocalConnProvider) (e : option error) :
  Reload ResolveTCPAddr os_Open json_Decode tp = (tp', e) ->
  wrapper tp' = wrapper tp /\ ConfigFile tp' = ConfigFile tp /\
  (pool_ok tp -> pool_ok tp') /\
  (e <> None -> tp' = tp).
Proof.
  unfold Reload.
  destruct (os_Open (ConfigFile tp)) as [fp|e0];
    [| intros Hr; inversion Hr; subst; auto].
  destruct (json_Decode fp) as [cfg|e0];
    [| intros Hr; inversion Hr; subst; auto].
  intros Hr.
  destruct (reset_cases ResolveTCPAddr tp (Hosts cfg))
    as [[e0 Hc] | [hs' [Hc _]]].
  - rewrite Hc in Hr. inversion Hr; subst. auto.
  - pose proof (reset_pool_ok ResolveTCPAddr tp _ _ Hc) as Hok.
    rewrite Hc in Hr. inversion Hr; subst. simpl.
    split; [reflexivity | split; [reflexivity | split; [auto |]]].
    intros Hne. contradiction.
Qed.

(** [reload()] logs one line, never panics, and leaves a provider related
    to the old one as [Reload] does. *)
Lemma reload_cases (glb : LocalConnProvider) :
  exists line glb',
    reload ResolveTCPAddr os_Open json_Decode glb = ([line], Ret glb') /\
    Reload ResolveTCPAddr os_Open json_Decode glb
      = (glb', match line with
               | EvLog _ _ [ArgError err] => Some err
               | _ => None
               end).
Proof.
  unfold reload.
  destruct (Reload ResolveTCPAddr os_Open json_Decode glb)
    as [glb' [err|]]; simpl; eauto.
Qed.

End ControlFacts.

Lemma bind_ret_inv {A B : Type} (m : M A) (k : A -> M B)
    (t : list event) (b : B) :
  bind m k = (t, Ret b) ->
  exists t1 a t2, m = (t1, Ret a) /\ k a = (t2, Ret b) /\ t = t1 ++ t2.
Proof.
  unfold bind. destruct m as [t1 [a|msg]]; [| discriminate].
  destruct (k a) as [t2 r] eqn:Hk. intros Hb. inversion Hb; subst.
  exists t1, a, t2. auto.
Qed.

Section SignalFacts.

Variable ResolveTCPAddr : string -> result TCPAddr.
Variable os_Open : string -> result string.
Variable json_Decode : string -> result Config.

(** X11.  [reload()] never panics and logs exactly one line: after a failed
    [Reload] the line carries the error and the provider is the one before
    the call; after a successful one the provider is in the published
    state. *)
Theorem reload_logs_once (glb : LocalConnProvider) :
  (forall glb' err,
     Reload ResolveTCPAddr os_Open json_Decode glb = (glb', Some err) ->
     reload ResolveTCPAddr os_Open json_Decode glb
       = ([EvLog LvLog "reload failed: %s" [ArgError err]], Ret glb)) /\
  (forall glb',
     Reload ResolveTCPAddr os_Open json_Decode glb = (glb', None) ->
     reload ResolveTCPAddr os_Open json_Decode glb
       = ([EvLog LvLog "reload succeed" []], Ret glb') /\
     pool_ok glb').
Proof.
  split.
  - intros glb' err Hr.
    destruct (Reload_frame ResolveTCPAddr os_Open json_Decode _ _ _ Hr)
      as (_ & _ & _ & Hsame).
    rewrite (Hsame ltac:(discriminate)) in Hr.
    unfold reload. rewrite Hr. reflexivity.
  - intros glb' Hr. split.
    + unfold reload. rewrite Hr. reflexivity.
    + revert Hr. unfold Reload.
      destruct (os_Open (ConfigFile glb)) as [fp|e0]; [| discriminate].
      destruct (json_Decode fp) as [cfg|e0]; [| discriminate].
      apply reset_pool_ok.
Qed.

End SignalFacts.

Section HandleSignalFacts.

Variable json_Decode : string -> result Config.

(** One turn of the loop of [handleSignal]. *)
Lemma handleSignal_cons (sig : Signal) (now : World)
    (rest : list (Signal * World))
    (glb : LocalConnProvider) (t : list event) (glb' : LocalConnProvider) :
  handleSignal json_Decode ((sig, now) :: rest) glb = (t, Ret glb') ->
  exists t1 glb1 t2,
    handleSignal json_Decode rest glb1 = (t2, Ret glb') /\
    t = t1 ++ t2 /\
    (glb1 = glb \/
     sig = SIG_RELOAD /\
     exists e,
       Reload (resolver now) (file_system now) json_Decode glb = (glb1, e)).
Proof.
  simpl. intros Hb.
  destruct (bind_ret_inv _ _ _ _ Hb) as (t1 & glb1 & t2 & Hstep & Hrest & Ht).
  exists t1, glb1, t2. split; [exact Hrest | split; [exact Ht |]].
  destruct (sig =? SIG_RELOAD) eqn:Hsig.
  - right. apply Z.eqb_eq in Hsig. split; [exact Hsig |].
    unfold reload in Hstep.
    destruct (Reload (resolver now) (file_system now) json_Decode glb)
      as [g [err|]]; simpl in Hstep; inversion Hstep; subst; eauto.
  - left. destruct (sig =? SIG_STATUS).
    + destruct (bind_ret_inv _ _ _ _ Hstep) as (? & ? & ? & _ & Hr & _).
      inversion Hr. reflexivity.
    + destruct (sig =? SIGTERM); simpl in Hstep; inversion Hstep;
        reflexivity.
Qed.

(** X12.  Whatever signals arrive, each handled in its own state of the
    file system and of the resolver, so that any reload may fail or succeed
    independently of the others, [handleSignal] keeps the hook and the
    configuration file name of the provider, and a provider in the
    published state stays in the published state. *)
Theorem handleSignal_keeps_provider_valid (c : list (Signal * World)) :
  forall glb t glb',
    handleSignal json_Decode c glb = (t, Ret glb') ->
    wrapper glb' = wrapper glb /\ ConfigFile glb' = ConfigFile glb /\
    (pool_ok glb -> pool_ok glb').
Proof.
  induction c as [|[sig now] rest IH]; intros glb t glb' Hh.
  - simpl in Hh. inversion Hh; subst. auto.
  - destruct (handleSignal_cons _ _ _ _ _ _ Hh)
      as (t1 & glb1 & t2 & Hrest & _ & Hstep).
    destruct (IH _ _ _ Hrest) as (Hw & Hf & Hp).
    destruct Hstep as [Heq | [_ [e Hr]]].
    + subst glb1. auto.
    + destruct (Reload_frame _ _ json_Decode _ _ _ Hr)
        as (Hw1 & Hf1 & Hp1 & _).
      rewrite Hw, Hf, Hw1, Hf1. auto.
Qed.

(** X13.  The provider changes only through a reload that succeeds: if
    [Reload] on the provider fails in the world of every reload signal
    that is handled (in particular if no reload signal is handled), the
    provider after the loop is the provider before it. *)
Theorem handleSignal_without_successful_reload (c : list (Signal * World)) :
  forall glb t glb',
    handleSignal json_Decode c glb = (t, Ret glb') ->
    (forall now, In (SIG_RELOAD, now) c ->
       exists e,
         Reload (resolver now) (file_system now) json_Decode glb
           = (glb, Some e)) ->
    glb' = glb.
Proof.
  induction c as [|[sig now] rest IH]; intros glb t glb' Hh Hfail.
  - simpl in Hh. inversion Hh; subst. reflexivity.
  - destruct (handleSignal_cons _ _ _ _ _ _ Hh)
      as (t1 & glb1 & t2 & Hrest & _ & Hstep).
    assert (Hsame : glb1 = glb).
    { destruct Hstep as [Heq | [Hsig [e Hr]]]; [exact Heq |].
      subst sig.
      destruct (Hfail now (or_introl eq_refl)) as [e' He'].
      rewrite He' in Hr. inversion Hr. reflexivity. }
    subst glb1. apply (IH _ _ _ Hrest).
    intros now' Hin. apply Hfail. right. exact Hin.
Qed.

(** A reload that fails does not stop a later one from succeeding: the
    provider after the loop is the one the last successful reload
    published. *)
Lemma handleSignal_failed_then_successful_reload :
  handleSignal decode_ab
    [(SIG_RELOAD, world_no_file); (SIG_STATUS, world_no_file);
     (SIG_RELOAD, world_ready)] pool_idle_b
    = ([EvLog LvLog "reload failed: %s"
          [ArgError (LibError "no such file or directory")];
        EvLog LvLog "status" [];
        EvLog LvLog "reload succeed" []],
       Ret (set_pool pool_idle_b (hosts pool_ab_reloaded) 2)).
Proof. vm_compute. reflexivity. Qed.

End HandleSignalFacts.

Lemma handleSignal_keeps_provider_valid_witness :
  wrapper (set_pool pool_idle_b (hosts pool_ab_reloaded) 2)
    = wrapper pool_idle_b /\
  ConfigFile (set_pool pool_idle_b (hosts pool_ab_reloaded) 2)
    = ConfigFile pool_idle_b /\
  (pool_ok pool_idle_b ->
   pool_ok (set_pool pool_idle_b (hosts pool_ab_reloaded) 2)).
Proof.
  apply (handleSignal_keeps_provider_valid decode_ab
           [(SIG_RELOAD, world_no_file); (SIG_STATUS, world_no_file);
            (SIG_RELOAD, world_ready)] pool_idle_b
           [EvLog LvLog "reload failed: %s"
              [ArgError (LibError "no such file or directory")];
            EvLog LvLog "status" [];
            EvLog LvLog "reload succeed" []]).
  vm_compute. reflexivity.
Defined.

Lemma reload_logs_once_witness :
  reload resolve_any open_any decode_zero_weight pool_ab
    = ([EvLog LvLog "reload failed: %s" [ArgError errNoHosts]],
       Ret pool_ab) /\
  reload resolve_any open_any decode_ab pool_ab
    = ([EvLog LvLog "reload succeed" []], Ret pool_ab_reloaded) /\
  pool_ok pool_ab_reloaded.
Proof.
  split.
  - apply (proj1 (reload_logs_once resolve_any open_any decode_zero_weight
                    pool_ab) pool_ab).
    reflexivity.
  - apply (proj2 (reload_logs_once resolve_any open_any decode_ab pool_ab)).
    reflexivity.
Defined.

Lemma handleSignal_without_successful_reload_witness :
  pool_ab = pool_ab.
Proof.
  apply (handleSignal_without_successful_reload decode_ab
           [(SIG_RELOAD, world_no_file); (SIGTERM, world_ready);
            (SIG_STATUS, world_ready); (SIG_RELOAD, world_no_file)]
           pool_ab
           [EvLog LvLog "reload failed: %s"
              [ArgError (LibError "no such file or directory")];
            EvLog LvLog "catch sigterm, ignore" [];
            EvLog LvLog "status" [];
            EvLog LvLog "reload failed: %s"
              [ArgError (LibError "no such file or directory")]]).
  - vm_compute. reflexivity.
  - intros now [Hn | [Hn | [Hn | [Hn | []]]]]; inversion Hn; subst now;
      exists (LibError "no such file or directory"); reflexivity.
Defined.

(** ** Hooks *)

(** X14.  A hook installed by [installWrapperHook] runs after the hooks
    installed before it, on the provider they leave behind, and does not
    run when one of them panics. *)
Theorem wrapperHook_installed_last (glbWrapperHooks : list WrapperHook)
    (hook : WrapperHook) :
  forall provider,
    wrapperHook (installWrapperHook glbWrapperHooks hook) provider
      = bind_outcome (wrapperHook glbWrapperHooks provider) hook.
Proof.
  unfold installWrapperHook.
  induction glbWrapperHooks as [|h hooks IH]; intros provider; simpl.
  - destruct (hook provider); reflexivity.
  - destruct (h provider) as [provider'|msg]; simpl; [apply IH | reflexivity].
Qed.

(** X15.  When two or more installed hooks each register a wrapper through
    [MustSetWrapper], [wrapperHook] panics, whatever the provider. *)
Theorem wrapperHook_two_registrations_panic (ws : list LocalConnWrapper)
    (provider : LocalConnProvider) :
  (2 <= List.length ws)%nat ->
  wrapperHook
    (map (fun w => fun tp => MustSetWrapper tp (Some w)) ws) provider
    = Panic "tp.wrapper != nil".
Proof.
  destruct ws as [|w1 [|w2 rest]]; simpl; intros Hlen; try lia.
  unfold MustSetWrapper at 1.
  destruct (wrapper provider); reflexivity.
Qed.

Lemma wrapperHook_two_registrations_panic_witness :
  wrapperHook
    (map (fun w => fun tp => MustSetWrapper tp (Some w))
       [passing_wrapper; failing_wrapper]) pool_ab
    = Panic "tp.wrapper != nil".
Proof.
  apply wrapperHook_two_registrations_panic. simpl. lia.
Defined.

(** X16.  Registering the nil wrapper on a provider without hook leaves it
    without hook: a registration that follows succeeds and installs its
    wrapper. *)
Theorem MustSetWrapper_nil_leaves_room (tp : LocalConnProvider)
    (w : option LocalConnWrapper) :
  wrapper tp = None ->
  bind_outcome (MustSetWrapper tp None) (fun tp' => MustSetWrapper tp' w)
    = Ret (set_wrapper tp w).
Proof.
  intros Hw. unfold MustSetWrapper. rewrite Hw. reflexivity.
Qed.

Lemma MustSetWrapper_nil_leaves_room_witness :
  bind_outcome (MustSetWrapper pool_ab None)
    (fun tp' => MustSetWrapper tp' (Some failing_wrapper))
    = Ret (set_wrapper pool_ab (Some failing_wrapper)).
Proof.
  apply MustSetWrapper_nil_leaves_room. reflexivity.
Defined.

(** ** Start-up, continued *)

Section MainFacts.

Variable ResolveTCPAddr : string -> result TCPAddr.
Variable os_Open : string -> result string.
Variable json_Decode : string -> result Config.
Variable glbWrapperHooks : list WrapperHook.

(** X17.  When the pool cannot be loaded, [main] logs the file name and the
    error and returns: no hook runs, no server is created and no listener
    is started. *)
Theorem main_load_failure (f : Flags) (provider : LocalConnProvider)
    (err : error) :
  Reload ResolveTCPAddr os_Open json_Decode
    (with_ConfigFile new_LocalConnProvider (config f))
    = (provider, Some err) ->
  main ResolveTCPAddr os_Open json_Decode glbWrapperHooks f
    = ([EvLog LvInfo "config file: %s" [ArgString (config f)];
        EvLog LvError "load target pool failed: %s" [ArgError err]],
       Ret tt).
Proof.
  intros Hr. unfold main. rewrite Hr. reflexivity.
Qed.

(** X18.  When a hook panics, [main] panics with it right after the pool
    load: no server is created and no listener is started. *)
Theorem main_hook_panic (f : Flags) (provider : LocalConnProvider)
    (msg : string) :
  Reload ResolveTCPAddr os_Open json_Decode
    (with_ConfigFile new_LocalConnProvider (config f))
    = (provider, None) ->
  wrapperHook glbWrapperHooks provider = Panic msg ->
  main ResolveTCPAddr os_Open json_Decode glbWrapperHooks f
    = ([EvLog LvInfo "config file: %s" [ArgString (config f)]], Panic msg).
Proof.
  intros Hr Hh. unfold main. rewrite Hr, Hh. reflexivity.
Qed.

(** X19.  A start-up that loads the pool and runs the hooks creates the
    server exactly once, before any listener, with the reuse timeout and
    the shard counts of the kcp flag (those of the tcp flag are not used),
    and sets the sent-cache size only when it is positive. *)
Theorem main_startup_order (f : Flags) (provider provider' : LocalConnProvider) :
  Reload ResolveTCPAddr os_Open json_Decode
    (with_ConfigFile new_LocalConnProvider (config f))
    = (provider, None) ->
  wrapperHook glbWrapperHooks provider = Ret provider' ->
  main ResolveTCPAddr os_Open json_Decode glbWrapperHooks f
    = ([EvLog LvInfo "config file: %s" [ArgString (config f)]] ++
       (if sentCacheSize f >? 0 then [EvSentCacheSize (sentCacheSize f)]
        else []) ++
       [EvNewSCPServer (reuseTimeout f) (fecData (kcp f))
          (fecParity (kcp f))] ++
       trace (start_listeners (tcp f) (kcp f) (listen f)),
       Ret tt).
Proof.
  intros Hr Hh. unfold main. rewrite Hr, Hh.
  unfold start_listeners.
  destruct (sentCacheSize f >? 0);
    destruct (set (default_tcp (tcp f) (kcp f)));
    destruct (set (kcp f)); reflexivity.
Qed.

End MainFacts.

(** X20.  The end of [main] always launches at least one listener, each
    at most once and all on the listen address: the kcp listener exactly
    when the kcp flag was given, the tcp listener exactly when the tcp flag
    was given or the kcp flag was not.  The statement is about which
    listeners are launched, not about an order between them: the two
    [Start] calls run in goroutines of their own. *)
Theorem start_listeners_started (tcp kcp : OptionsFlag) (laddr : string) :
  (forall network l,
     In (network, l) (started (trace (start_listeners tcp kcp laddr))) <->
     l = laddr /\
     (network = "tcp" /\ (set tcp || negb (set kcp)) = true \/
      network = "kcp" /\ set kcp = true)) /\
  NoDup (started (trace (start_listeners tcp kcp laddr))) /\
  started (trace (start_listeners tcp kcp laddr)) <> [] /\
  value (start_listeners tcp kcp laddr) = Ret (default_tcp tcp kcp).
Proof.
  assert (Hneq : ("tcp", laddr) <> ("kcp", laddr)) by discriminate.
  unfold start_listeners, default_tcp.
  destruct (set tcp) eqn:Ht; destruct (set kcp) eqn:Hk; simpl;
    rewrite ?Ht, ?Hk; simpl;
    (split; [| split; [| split; [discriminate | reflexivity]]]).
  all: try (intros network l; split;
            [ intros Hin;
              repeat (destruct Hin as [Hin | Hin];
                      [inversion Hin; subst; auto |]);
              contradiction
            | intros [Hl [[Hn Hc] | [Hn Hc]]]; subst;
              try discriminate; auto ]).
  all: repeat constructor; simpl; intuition congruence.
Qed.

Lemma main_load_failure_witness :
  main resolve_any open_none decode_ab [] default_flags
    = ([EvLog LvInfo "config file: %s" [ArgString "./settings.conf"];
        EvLog LvError "load target pool failed: %s"
          [ArgError (LibError "no such file or directory")]],
       Ret tt).
Proof.
  apply (main_load_failure resolve_any open_none decode_ab [] default_flags
           (with_ConfigFile new_LocalConnProvider "./settings.conf")).
  reflexivity.
Defined.

Lemma main_hook_panic_witness :
  main resolve_any open_any decode_ab
    (map (fun w => fun tp => MustSetWrapper tp (Some w))
       [passing_wrapper; failing_wrapper]) default_flags
    = ([EvLog LvInfo "config file: %s" [ArgString "./settings.conf"]],
       Panic "tp.wrapper != nil").
Proof.
  apply (main_hook_panic resolve_any open_any decode_ab _ default_flags
           (set_pool (with_ConfigFile new_LocalConnProvider
                        "./settings.conf")
              [set_addr host_a (mkTCPAddr "10.0.0.1:7001" 0 "");
               set_addr host_b (mkTCPAddr "10.0.0.2:7001" 0 "")] 2));
    reflexivity.
Defined.

Lemma main_startup_order_witness :
  main resolve_any open_any decode_ab [] default_flags
    = ([EvLog LvInfo "config file: %s" [ArgString "./settings.conf"]] ++
       [EvSentCacheSize 65536] ++
       [EvNewSCPServer 30 0 0] ++
       trace (start_listeners zero_OptionsFlag zero_OptionsFlag
                "0.0.0.0:1248"),
       Ret tt).
Proof.
  apply (main_startup_order resolve_any open_any decode_ab [] default_flags
           (set_pool (with_ConfigFile new_LocalConnProvider
                        "./settings.conf")
              [set_addr host_a (mkTCPAddr "10.0.0.1:7001" 0 "");
               set_addr host_b (mkTCPAddr "10.0.0.2:7001" 0 "")] 2)
           (set_pool (with_ConfigFile new_LocalConnProvider
                        "./settings.conf")
              [set_addr host_a (mkTCPAddr "10.0.0.1:7001" 0 "");
               set_addr host_b (mkTCPAddr "10.0.0.2:7001" 0 "")] 2));
    reflexivity.
Defined.

(** ** Option values, continued *)

(** X21.  [OptionsFlag.Set] reads the items from left to right: the items
    of a second list are read from the flag value the first list leaves,
    unless the first list panicked or hit a parse error, in which case
    that outcome stands with what had been recorded until then. *)
Theorem Set_pairs_app (pairs1 pairs2 : list string) :
  forall o,
    Set_pairs o (pairs1 ++ pairs2)
      = bind_outcome (Set_pairs o pairs1) (fun r => then_pairs r pairs2).
Proof.
  induction pairs1 as [|item pairs1 IH]; intros o; simpl.
  - reflexivity.
  - destruct (index (strings_Split item ":"%char) 0) as [key|msg]; simpl;
      [| reflexivity].
    destruct (String.eqb key "fec_data").
    + destruct (index (strings_Split item ":"%char) 1) as [arg|msg]; simpl;
        [| reflexivity].
      destruct (strconv_Atoi arg); [apply IH | reflexivity].
    + destruct (String.eqb key "fec_parity"); [| apply IH].
      destruct (index (strings_Split item ":"%char) 1) as [arg|msg]; simpl;
        [| reflexivity].
      destruct (strconv_Atoi arg); [apply IH | reflexivity].
Qed.

Lemma Set_pairs_frame (pairs : list string) :
  forall o o' e,
    Set_pairs o pairs = Ret (o', e) ->
    set o' = set o /\
    ((forall item, In item pairs -> item_key item <> "fec_data") ->
     fecData o' = fecData o) /\
    ((forall item, In item pairs -> item_key item <> "fec_parity") ->
     fecParity o' = fecParity o).
Proof.
  induction pairs as [|item pairs IH]; intros o o' e Hs; simpl in Hs.
  - inversion Hs; subst. auto.
  - assert (Hrest : forall o1,
      Set_pairs o1 pairs = Ret (o', e) ->
      set o1 = set o ->
      (item_key item <> "fec_data" -> fecData o1 = fecData o) ->
      (item_key item <> "fec_parity" -> fecParity o1 = fecParity o) ->
      set o' = set o /\
      ((forall x, In x (item :: pairs) -> item_key x <> "fec_data") ->
       fecData o' = fecData o) /\
      ((forall x, In x (item :: pairs) -> item_key x <> "fec_parity") ->
       fecParity o' = fecParity o)).
    { intros o1 H1 Hset Hd Hp. destruct (IH _ _ _ H1) as (Hs1 & Hd1 & Hp1).
      split; [congruence | split]; intros Hno.
      - rewrite Hd1 by (intros x Hx; apply Hno; right; exact Hx).
        apply Hd, Hno. left; reflexivity.
      - rewrite Hp1 by (intros x Hx; apply Hno; right; exact Hx).
        apply Hp, Hno. left; reflexivity. }
    unfold item_key in Hrest. unfold index in Hs.
    destruct (strings_Split item ":"%char) as [|key fields]; simpl in Hs;
      [discriminate |].
    destruct (String.eqb key "fec_data") eqn:Hk1.
    + apply String.eqb_eq in Hk1.
      destruct fields as [|arg more]; simpl in Hs; [discriminate |].
      destruct (strconv_Atoi arg) as [data|err].
      * apply (Hrest _ Hs); simpl; auto; try contradiction.
      * inversion Hs; subst. repeat split; reflexivity.
    + destruct (String.eqb key "fec_parity") eqn:Hk2.
      * apply String.eqb_eq in Hk2.
        destruct fields as [|arg more]; simpl in Hs; [discriminate |].
        destruct (strconv_Atoi arg) as [parity|err].
        -- apply (Hrest _ Hs); simpl; auto; try contradiction.
        -- inversion Hs; subst. repeat split; reflexivity.
      * apply (Hrest _ Hs); auto.
Qed.

(** X22.  Whenever [OptionsFlag.Set] returns, with or without a parse
    error, the flag is marked as given, and a shard count differs from the
    one before the call only if the value holds an item with its key. *)
Theorem OptionsFlag_Set_marks_and_frames (o o' : OptionsFlag)
    (value : string) (e : option error) :
  OptionsFlag_Set o value = Ret (o', e) ->
  set o' = true /\
  ((forall item, In item (strings_Split value ","%char) ->
      item_key item <> "fec_data") ->
   fecData o' = fecData o) /\
  ((forall item, In item (strings_Split value ","%char) ->
      item_key item <> "fec_parity") ->
   fecParity o' = fecParity o).
Proof.
  unfold OptionsFlag_Set. intros Hs.
  destruct (Set_pairs_frame _ _ _ _ Hs) as (Hset & Hd & Hp).
  simpl in *. auto.
Qed.

Lemma OptionsFlag_Set_marks_and_frames_witness :
  set (mkOptionsFlag true 4 0) = true /\
  ((forall item, In item (strings_Split "fec_data:4,x:y" ","%char) ->
      item_key item <> "fec_data") ->
   fecData (mkOptionsFlag true 4 0) = fecData zero_OptionsFlag) /\
  ((forall item, In item (strings_Split "fec_data:4,x:y" ","%char) ->
      item_key item <> "fec_parity") ->
   fecParity (mkOptionsFlag true 4 0) = fecParity zero_OptionsFlag).
Proof.
  apply (OptionsFlag_Set_marks_and_frames zero_OptionsFlag
           (mkOptionsFlag true 4 0) "fec_data:4,x:y" None).
  reflexivity.
Defined.

Lemma Set_pairs_unnamed (pairs : list string) :
  Forall (fun item => names_shards item = false) pairs ->
  forall o, Set_pairs o pairs = Ret (o, None).
Proof.
  induction 1 as [|item pairs Hitem _ IH]; intros o; simpl.
  - reflexivity.
  - unfold names_shards in Hitem. unfold index.
    pose proof (strings_Split_nonempty item ":"%char) as Hne.
    destruct (strings_Split item ":"%char) as [|key fields];
      [contradiction |]; simpl.
    apply Bool.orb_false_iff in Hitem. destruct Hitem as [H1 H2].
    rewrite H1, H2. apply IH.
Qed.

(** X23.  A value none of whose items has the key [fec_data] or
    [fec_parity] is accepted without error and changes nothing but the
    mark that the flag was given; the empty value is such a value. *)
Theorem OptionsFlag_Set_ignores_other_items (o : OptionsFlag)
    (value : string) :
  Forall (fun item => names_shards item = false)
    (strings_Split value ","%char) ->
  OptionsFlag_Set o value = Ret (with_set o true, None) /\
  OptionsFlag_Set o "" = Ret (with_set o true, None).
Proof.
  intros Hall. split; [| reflexivity].
  unfold OptionsFlag_Set. apply Set_pairs_unnamed. exact Hall.
Qed.

Lemma OptionsFlag_Set_ignores_other_items_witness :
  OptionsFlag_Set zero_OptionsFlag "nodelay,mtu:1400,fec"
    = Ret (with_set zero_OptionsFlag true, None) /\
  OptionsFlag_Set zero_OptionsFlag "" = Ret (with_set zero_OptionsFlag true, None).
Proof.
  apply OptionsFlag_Set_ignores_other_items.
  repeat constructor.
Defined.

Lemma strings_Split_app (s1 s2 : string) (sep : ascii) :
  strings_Split (s1 ++ String sep s2)%string sep
    = strings_Split s1 sep ++ strings_Split s2 sep.
Proof.
  induction s1 as [|c s1 IH]; simpl.
  - rewrite Ascii.eqb_refl. reflexivity.
  - destruct (Ascii.eqb c sep).
    + rewrite IH. reflexivity.
    + rewrite IH.
      pose proof (strings_Split_nonempty s1 sep) as Hne.
      destruct (strings_Split s1 sep) as [|piece pieces];
        [contradiction | reflexivity].
Qed.

(** X24.  Calling [OptionsFlag.Set] on a value and then, if that raised no
    parse error, on a second value (what giving the flag twice amounts to)
    has the outcome of one call on the two values joined by a comma. *)
Theorem OptionsFlag_Set_twice (o : OptionsFlag) (value1 value2 : string) :
  OptionsFlag_Set o (value1 ++ String ","%char value2)%string
    = bind_outcome (OptionsFlag_Set o value1)
        (fun r =>
           match r with
           | (o1, None) => OptionsFlag_Set o1 value2
           | (o1, Some err) => Ret (o1, Some err)
           end).
Proof.
  unfold OptionsFlag_Set.
  rewrite strings_Split_app, Set_pairs_app.
  destruct (Set_pairs (with_set o true) (strings_Split value1 ","%char))
    as [[o1 [err|]]|msg] eqn:Hs; simpl; try reflexivity.
  destruct (Set_pairs_frame _ _ _ _ Hs) as (Hset & _).
  simpl in Hset. destruct o1 as [s d p]. simpl in Hset. subst s.
  reflexivity.
Qed.

(** ** Reload, continued *)

(** X25.  A successful [Reload] replaces the pool wholesale: the provider
    it yields does not depend on the hosts and the total weight that were
    published before, which only survive a failed [Reload]. *)
Theorem Reload_replaces_pool
    (ResolveTCPAddr : string -> result TCPAddr)
    (os_Open : string -> result string)
    (json_Decode : string -> result Config)
    (tp : LocalConnProvider) (hs : list Host) (w : Z) :
  Reload ResolveTCPAddr os_Open json_Decode (set_pool tp hs w)
    = match Reload ResolveTCPAddr os_Open json_Decode tp with
      | (tp', None) => (tp', None)
      | (_, Some err) => (set_pool tp hs w, Some err)
      end.
Proof.
  unfold Reload, reset. simpl.
  destruct (os_Open (ConfigFile tp)) as [fp|e0]; [| reflexivity].
  destruct (json_Decode fp) as [cfg|e0]; [| reflexivity].
  destruct (resolve_hosts ResolveTCPAddr (Hosts cfg) 0) as [[hs' w']|e0];
    [| reflexivity].
  destruct (w' <=? 0); reflexivity.
Qed.

(** ** Weighted selection after a reset *)

Lemma resolved_same_sign (ResolveTCPAddr : string -> result TCPAddr)
    (hs hs' : list Host) :
  Forall2 (resolved ResolveTCPAddr) hs hs' ->
  Forall (fun h => 0 <= Weight h) hs ->
  Forall (fun h => 0 <= Weight h) hs'.
Proof.
  induction 1 as [|h h' hs hs' [a [_ Hh']] _ IH]; intros Hnn.
  - constructor.
  - inversion Hnn as [|x l Hx Hl]; subst. constructor; [exact Hx | auto].
Qed.

(** X26.  When [reset] accepts a list none of whose weights is negative,
    [GetHostByWeight] on the provider it publishes returns, for every draw
    in [0, total weight), a host of the pool, and that host has its address
    resolved. *)
Theorem GetHostByWeight_after_reset
    (ResolveTCPAddr : string -> result TCPAddr)
    (tp0 tp : LocalConnProvider) (hs : list Host) (rand_draw : Z -> Z) :
  reset ResolveTCPAddr tp0 hs = (tp, None) ->
  Forall (fun h => 0 <= Weight h) hs ->
  0 <= rand_draw (weight tp) < weight tp ->
  exists h,
    GetHostByWeight rand_draw tp = ([], Ret (Some h)) /\
    In h (hosts tp) /\ addr h <> None.
Proof.
  intros Hreset Hnn Hdraw.
  destruct (reset_pool_ok ResolveTCPAddr tp0 tp hs Hreset)
    as (Hsum & Hpos & Haddr).
  assert (Hnn' : Forall (fun h => 0 <= Weight h) (hosts tp)).
  { destruct (reset_cases ResolveTCPAddr tp0 hs)
      as [[e0 Hr] | [hs' [Hr [Hall _]]]]; rewrite Hr in Hreset;
      [discriminate |].
    inversion Hreset; subst tp. simpl.
    exact (resolved_same_sign ResolveTCPAddr hs hs' Hall Hnn). }
  assert (Hle : weight tp <= exact_sum (hosts tp)).
  { rewrite Hsum. apply sum_weights_le_exact; [exact Hnn' | lia]. }
  assert (Hmax : weight tp <= GoInt.int_max).
  { rewrite Hsum. apply sum_weights_in_range. }
  destruct (walk_by_weight_some (hosts tp) Hnn' (rand_draw (weight tp)))
    as [h [Hwalk Hin]]; [lia | lia |].
  exists h. split; [| split; [exact Hin |]].
  - unfold GetHostByWeight, rand_Intn.
    destruct (weight tp <=? 0) eqn:Hw; [apply Z.leb_le in Hw; lia |].
    simpl. rewrite Hwalk. reflexivity.
  - exact (proj1 (Forall_forall _ _) Haddr h Hin).
Qed.

Lemma GetHostByWeight_after_reset_witness :
  exists h,
    GetHostByWeight last_draw pool_ab_reloaded = ([], Ret (Some h)) /\
    In h (hosts pool_ab_reloaded) /\ addr h <> None.
Proof.
  apply (GetHostByWeight_after_reset resolve_any pool_ab pool_ab_reloaded
           [host_a; host_b] last_draw).
  - reflexivity.
  - repeat constructor; simpl; lia.
  - unfold last_draw; simpl; lia.
Defined.
